(** * ejoyshopper: the product scripts, embedded and verified

    Two scripts are embedded here:
    - [mymall_scraper.py]: builds one hard-coded product, optionally upserts
      it to the store over HTTP, prints a report and returns 0;
    - [scripts/sync_products.py]: fetches raw records from an API, tags each
      with the member id and upserts them through the store client.

    Python values are modelled as the code has them: a [str] is a sequence of
    Unicode code points, [bytes] a sequence of octets, a [dict] an insertion
    ordered association list.  Effects (console output, logging, outbound
    requests) are collected in a trace; exceptions are explicit results. *)

From Stdlib Require Import String Ascii.
From Stdlib Require Import ZArith List Bool Lia.
Import ListNotations.
Local Open Scope Z_scope.

(** ** Python values *)

(** A Python [str]: its code points, in order. *)
Definition str := list Z.

(** A [bytes] object: octets, each in [0, 256). *)
Definition bytes := list Z.

(** An ASCII literal of the source as a [str]. *)
Definition lit (s : string) : str :=
  map (fun c => Z.of_nat (nat_of_ascii c)) (list_ascii_of_string s).

Definition str_eqb (a b : str) : bool :=
  if list_eq_dec Z.eq_dec a b then true else false.

(** The exceptions the two scripts can meet. *)
Inductive exn : Type :=
| SystemExit (code : Z)
| UnicodeEncodeError
| RequestException
| HTTPError
| JSONDecodeError
| NameError
| TypeError
| AttributeError
| StoreClientError.

(** [except Exception] catches everything but [SystemExit]. *)
Definition is_Exception (e : exn) : bool :=
  match e with SystemExit _ => false | _ => true end.

(** [except requests.exceptions.RequestException]: the class itself and its
    subclasses [HTTPError] and (requests >= 2.27) [JSONDecodeError]. *)
Definition is_RequestException (e : exn) : bool :=
  match e with
  | RequestException | HTTPError | JSONDecodeError => true
  | _ => false
  end.

Inductive result (A : Type) : Type :=
| Ok (a : A)
| Raise (e : exn).
Arguments Ok {A} a.
Arguments Raise {A} e.

(** The values that travel as JSON: what [response.json()] returns and what
    the upsert sends.  A [float] is kept as mantissa and decimal exponent. *)
Local Unset Elimination Schemes.
Inductive json : Type :=
| JNull
| JBool (b : bool)
| JInt (n : Z)
| JFloat (m e : Z)
| JStr (s : str)
| JList (l : list json)
| JDict (d : list (str * json)).
Local Set Elimination Schemes.

(** Python truthiness ([if x:], [not x], [all], [x or y]). *)
Definition truthy (v : json) : bool :=
  match v with
  | JNull => false
  | JBool b => b
  | JInt n => negb (n =? 0)
  | JFloat m _ => negb (m =? 0)
  | JStr s => match s with [] => false | _ => true end
  | JList l => match l with [] => false | _ => true end
  | JDict d => match d with [] => false | _ => true end
  end.

(** [len(x)]; the scalars have no length. *)
Definition py_len (v : json) : result nat :=
  match v with
  | JStr s => Ok (length s)
  | JList l => Ok (length l)
  | JDict d => Ok (length d)
  | _ => Raise TypeError
  end.

(** An environment variable read by [os.getenv] / [os.environ.get]:
    [None] when unset.  Truthy when set and not empty. *)
Definition env_truthy (v : option str) : bool :=
  match v with
  | Some (_ :: _) => true
  | _ => false
  end.

(** A [dict] keeps insertion order; assigning to a key that is present
    replaces its value in place, a new key goes last. *)
Section Dict.
Context {V : Type}.

Fixpoint dict_get (k : str) (d : list (str * V)) : option V :=
  match d with
  | [] => None
  | (k', v) :: d' => if str_eqb k k' then Some v else dict_get k d'
  end.

Fixpoint dict_set (k : str) (v : V) (d : list (str * V)) : list (str * V) :=
  match d with
  | [] => [(k, v)]
  | (k', v') :: d' =>
      if str_eqb k k' then (k, v) :: d' else (k', v') :: dict_set k v d'
  end.

Definition dict_keys (d : list (str * V)) : list str := map fst d.
End Dict.

(** ** Effects: a trace of events and a result or an exception *)

Section Effects.
Context {E : Type}.

Definition M (A : Type) : Type := (list E * result A)%type.

Definition ret {A} (a : A) : M A := ([], Ok a).

Definition raise {A} (e : exn) : M A := ([], Raise e).

Definition emit (ev : E) : M unit := ([ev], Ok tt).

Definition lift {A} (r : result A) : M A := ([], r).

Definition bind {A B} (m : M A) (k : A -> M B) : M B :=
  match m with
  | (t, Ok a) => let (t', r) := k a in (t ++ t', r)
  | (t, Raise e) => (t, Raise e)
  end.

(** [try: m except <catches> as e: handler e] *)
Definition try_except {A} (m : M A) (catches : exn -> bool)
           (handler : exn -> M A) : M A :=
  match m with
  | (t, Raise e) =>
      if catches e then let (t', r) := handler e in (t ++ t', r)
      else (t, Raise e)
  | done => done
  end.

(** [for x in xs: body x] *)
Fixpoint for_each {A} (xs : list A) (body : A -> M unit) : M unit :=
  match xs with
  | [] => ret tt
  | x :: xs' => bind (body x) (fun _ => for_each xs' body)
  end.

Definition trace {A} (m : M A) : list E := fst m.
Definition outcome {A} (m : M A) : result A := snd m.

(** The exit status of a process whose top level ran [m]: 0 at the natural
    end, the code of an uncaught [SystemExit], 1 after a traceback. *)
Definition exit_status {A} (m : M A) : Z :=
  match outcome m with
  | Ok _ => 0
  | Raise (SystemExit c) => c
  | Raise _ => 1
  end.
End Effects.
Arguments M : clear implicits.

Declare Scope py_scope.
Delimit Scope py_scope with py.
Notation "x <- m ;; k" := (bind m (fun x => k))
  (at level 61, m at next level, right associativity) : py_scope.
Notation "m ;; k" := (bind m (fun _ => k))
  (at level 61, right associativity) : py_scope.

(** ** UTF-8: [str.encode("utf-8")] *)

Module UTF8.

(** A code point the codec accepts: a Unicode scalar value.  Python's
    strict codec refuses the surrogates U+D800..U+DFFF. *)
Definition scalar (c : Z) : bool :=
  ((0 <=? c) && (c <? 0xD800)) || ((0xE000 <=? c) && (c <=? 0x10FFFF)).

Definition cont (c : Z) (sh : Z) : Z :=
  Z.lor 0x80 (Z.land (Z.shiftr c sh) 0x3F).

Definition encode_cp (c : Z) : list Z :=
  if c <? 0x80 then [c]
  else if c <? 0x800 then [Z.lor 0xC0 (Z.shiftr c 6); cont c 0]
  else if c <? 0x10000 then [Z.lor 0xE0 (Z.shiftr c 12); cont c 6; cont c 0]
  else [Z.lor 0xF0 (Z.shiftr c 18); cont c 12; cont c 6; cont c 0].

Fixpoint encode (s : str) : result bytes :=
  match s with
  | [] => Ok []
  | c :: s' =>
      if scalar c then
        match encode s' with
        | Ok bs => Ok (encode_cp c ++ bs)
        | Raise e => Raise e
        end
      else Raise UnicodeEncodeError
  end.

Definition well_formed (s : str) : Prop := Forall (fun c => scalar c = true) s.

End UTF8.

(** ** SHA-1: [hashlib.sha1] (FIPS 180-4), on 32-bit words held in [Z] *)

Module SHA1.

Definition modulus : Z := 2 ^ 32.

Definition add32 (a b : Z) : Z := (a + b) mod modulus.

Definition not32 (a : Z) : Z := Z.lxor a 0xFFFFFFFF.

(** Rotate a 32-bit word left by [n] bits, [0 < n < 32]. *)
Definition rotl (n : Z) (x : Z) : Z :=
  Z.lor (Z.shiftl x n mod modulus) (Z.shiftr x (32 - n)).

(** The round function and constant of round [t]. *)
Definition f (t : nat) (b c d : Z) : Z :=
  if (t <? 20)%nat then Z.lor (Z.land b c) (Z.land (not32 b) d)
  else if (t <? 40)%nat then Z.lxor (Z.lxor b c) d
  else if (t <? 60)%nat then
    Z.lor (Z.lor (Z.land b c) (Z.land b d)) (Z.land c d)
  else Z.lxor (Z.lxor b c) d.

Definition K (t : nat) : Z :=
  if (t <? 20)%nat then 0x5A827999
  else if (t <? 40)%nat then 0x6ED9EBA1
  else if (t <? 60)%nat then 0x8F1BBCDC
  else 0xCA62C1D6.

(** The five chaining words. *)
Record state : Type := State { h0 : Z; h1 : Z; h2 : Z; h3 : Z; h4 : Z }.

Definition init : state :=
  State 0x67452301 0xEFCDAB89 0x98BADCFE 0x10325476 0xC3D2E1F0.

(** Padding: a 1 bit, zeros up to 56 mod 64, the bit length on 64 bits. *)
Definition be_bytes (n : nat) (x : Z) : list Z :=
  map (fun i => Z.land (Z.shiftr x (8 * Z.of_nat i)) 0xFF) (rev (seq 0 n)).

Definition pad (msg : bytes) : bytes :=
  let len := Z.of_nat (length msg) in
  msg ++ [0x80] ++ repeat 0 (Z.to_nat ((55 - len) mod 64))
      ++ be_bytes 8 (8 * len).

(** Big-endian 32-bit words of a byte sequence. *)
Fixpoint words (bs : bytes) : list Z :=
  match bs with
  | b0 :: b1 :: b2 :: b3 :: rest =>
      (Z.shiftl b0 24 + Z.shiftl b1 16 + Z.shiftl b2 8 + b3) :: words rest
  | _ => []
  end.

(** Message schedule, newest word first: [n] more words after [w]. *)
Fixpoint schedule (n : nat) (w : list Z) : list Z :=
  match n with
  | O => w
  | S n' =>
      let x := Z.lxor (Z.lxor (nth 2 w 0) (nth 7 w 0))
                      (Z.lxor (nth 13 w 0) (nth 15 w 0)) in
      schedule n' (rotl 1 x :: w)
  end.

Definition round (s : state) (tw : nat * Z) : state :=
  let (t, w) := tw in
  let tmp := add32 (add32 (add32 (add32 (rotl 5 (h0 s)) (f t (h1 s) (h2 s) (h3 s)))
                                 (h4 s)) (K t)) w in
  State tmp (h0 s) (rotl 30 (h1 s)) (h2 s) (h3 s).

Definition compress (h : state) (block : list Z) : state :=
  let w := rev (schedule 64 (rev block)) in
  let s := fold_left round (combine (seq 0 80) w) h in
  State (add32 (h0 h) (h0 s)) (add32 (h1 h) (h1 s)) (add32 (h2 h) (h2 s))
        (add32 (h3 h) (h3 s)) (add32 (h4 h) (h4 s)).

Fixpoint process (n : nat) (ws : list Z) (h : state) : state :=
  match n with
  | O => h
  | S n' => process n' (skipn 16 ws) (compress h (firstn 16 ws))
  end.

Definition digest (msg : bytes) : state :=
  let ws := words (pad msg) in
  process (length ws / 16) ws init.

(** [hexdigest]: eight lowercase hexadecimal digits per word. *)
Definition hexchars : str := lit "0123456789abcdef".

Definition hexdigit (x : Z) : Z := nth (Z.to_nat (Z.land x 0xF)) hexchars 48.

Definition hex32 (w : Z) : str :=
  map (fun sh => hexdigit (Z.shiftr w sh)) [28; 24; 20; 16; 12; 8; 4; 0].

Definition hexdigest (msg : bytes) : str :=
  let s := digest msg in
  hex32 (h0 s) ++ hex32 (h1 s) ++ hex32 (h2 s) ++ hex32 (h3 s) ++ hex32 (h4 s).

End SHA1.

(** ** The identifier generator (mymall_scraper.py, [make_id]) *)

Definition make_id (url : str) : result str :=
  match UTF8.encode url with
  | Ok bs => Ok (SHA1.hexdigest bs)
  | Raise e => Raise e
  end.


(** ** mymall_scraper.py *)

Module MymallScraper.

Definition DEFAULT_KEY : str := lit "sBsuWE3xU4ITG78UET".
Definition DEFAULT_MEMBER : str := lit "af000049855".

(** The dataclass [Product]. *)
Record Product : Type := mkProduct {
  id : str;
  title : str;
  url : str;
  price : option Z;
  currency : str;
  image : option str;
  stock : option Z;
  source : str
}.

Definition opt_json {A} (f : A -> json) (o : option A) : json :=
  match o with
  | Some a => f a
  | None => JNull
  end.

(** [dataclasses.asdict]: one entry per field, in declaration order. *)
Definition asdict (p : Product) : json :=
  JDict [ (lit "id", JStr (id p));
          (lit "title", JStr (title p));
          (lit "url", JStr (url p));
          (lit "price", opt_json JInt (price p));
          (lit "currency", JStr (currency p));
          (lit "image", opt_json JStr (image p));
          (lit "stock", opt_json JInt (stock p));
          (lit "source", JStr (source p)) ].

(** The arguments of [requests.post]; [req_data] is the document that
    [json.dumps(rows)] writes into the body. *)
Record request : Type := mkRequest {
  req_url : str;
  req_params : list (str * str);
  req_headers : list (str * str);
  req_data : json;
  req_timeout : option Z
}.

(** What the network does with a POST: the call raises, or a response with
    a status code and a body comes back. *)
Inductive post_outcome : Type :=
| PostRaises
| PostResponse (status_code : Z) (text : str).

(** The lines the script prints. *)
Inductive line : Type :=
| InfoConfigMissing                  (* [INFO] ... skipping the write *)
| InfoRequestsMissing                (* [INFO] requests not installed *)
| UpsertSucceeded (rows : nat)       (* [Supabase] upsert n rows ... *)
| UpsertFailed (e : exn)             (* [Supabase] upsert ... : e *)
| UpsertResponse (status_code : Z) (text : str)  (* [Supabase] response: *)
| RunSucceeded (count : nat)         (* the closing success line *)
| ItemTitle (t : str).               (* - title *)

Inductive event : Type :=
| Print (l : line)
| HttpPost (req : request).

(** What the process finds around it: the environment at import time,
    whether [requests] could be imported, and the network. *)
Record world : Type := mkWorld {
  SUPABASE_URL : option str;
  SUPABASE_SERVICE_ROLE_KEY : option str;
  requests_imported : bool;
  post : request -> post_outcome
}.

(** [argparse]'s namespace for [build_parser]. *)
Record Namespace : Type := mkNamespace {
  mode : str;
  insert : bool
}.

Local Open Scope py_scope.

(** [print(...)] of one of the script's lines.  The console is taken to
    accept every line: a [stdout] whose encoding cannot represent the
    non-ASCII text of the messages (where [print] raises
    [UnicodeEncodeError]) is outside this model. *)
Definition print (l : line) : M event unit := emit (Print l).

(** [v or ""] *)
Definition env_or_empty (v : option str) : str :=
  match v with
  | Some s => s
  | None => []
  end.

(** [f"{v}"]: an unset variable prints as [None]. *)
Definition format_env (v : option str) : str :=
  match v with
  | Some s => s
  | None => lit "None"
  end.

Definition SUPABASE_HEADERS (w : world) : list (str * str) :=
  let key := SUPABASE_SERVICE_ROLE_KEY w in
  [ (lit "apikey", env_or_empty key);
    (lit "Authorization",
      if env_truthy key then lit "Bearer " ++ format_env key else []);
    (lit "Content-Type", lit "application/json") ].

(** [r.raise_for_status()]: 4xx and 5xx raise [HTTPError]. *)
Definition raise_for_status (status_code : Z) : M event unit :=
  if (400 <=? status_code) && (status_code <? 600) then raise HTTPError
  else ret tt.

(** [_requests.post(...)]: the request goes out, then the call returns the
    response or raises. *)
Definition requests_post (w : world) (req : request) : M event (Z * str) :=
  emit (HttpPost req) ;;
  match post w req with
  | PostRaises => raise RequestException
  | PostResponse c t => ret (c, t)
  end.

(** Reading the local [r] in the handler: unbound when [post] raised. *)
Definition local_r (w : world) (req : request) : M event (Z * str) :=
  match post w req with
  | PostRaises => raise NameError
  | PostResponse c t => ret (c, t)
  end.

(** The request of lines 73-79: URL, [on_conflict] parameter, headers with
    the merge preference, the rows as body, a 30 second timeout. *)
Definition upsert_request (w : world) (products : list Product) : request :=
  let url := format_env (SUPABASE_URL w) ++ lit "/rest/v1/products" in
  let rows := map asdict products in
  let headers :=
    dict_set (lit "Prefer")
             (lit "resolution=merge-duplicates,return=representation")
             (SUPABASE_HEADERS w) in
  let params := [(lit "on_conflict", lit "id")] in
  mkRequest url params headers (JList rows) (Some 30).

Definition supabase_upsert_products (w : world) (products : list Product)
  : M event unit :=
  if negb (env_truthy (SUPABASE_URL w))
     || negb (env_truthy (SUPABASE_SERVICE_ROLE_KEY w)) then
    print InfoConfigMissing
  else if negb (requests_imported w) then
    print InfoRequestsMissing
  else
    let req := upsert_request w products in
    try_except
      (r <- requests_post w req ;;
       raise_for_status (fst r) ;;
       print (UpsertSucceeded (length (map asdict products))))
      is_Exception
      (fun e =>
         print (UpsertFailed e) ;;
         try_except
           (r <- local_r w req ;;
            print (UpsertResponse (fst r) (firstn 400 (snd r))))
           is_Exception
           (fun _ => ret tt)).

(** The record list [main] builds (lines 104-130). *)
Definition build_products (args : Namespace) : result (list Product) :=
  if str_eqb (mode args) (lit "scrape") then
    let url := lit "https://www.mymall.com.tw/pro-123?member=" ++ DEFAULT_MEMBER in
    match make_id url with
    | Ok i =>
        Ok [ mkProduct i [0x6E2C; 0x8A66; 0x5546; 0x54C1] url (Some 299)
                       (lit "TWD") None (Some 100) (lit "scrape") ]
    | Raise e => Raise e
    end
  else if str_eqb (mode args) (lit "api") then
    let res_title := lit "API " ++ [0x6E2C; 0x8A66; 0x5546; 0x54C1] in
    let res_url := lit "https://www.mymall.com.tw/pro-456" in
    match make_id res_url with
    | Ok i =>
        Ok [ mkProduct i res_title res_url (Some 499)
                       (lit "TWD") None (Some 50) (lit "api") ]
    | Raise e => Raise e
    end
  else Ok [].

Definition nonempty {A} (l : list A) : bool :=
  match l with [] => false | _ => true end.

(** [main(argv)].  [parse_args] is [argparse]'s answer for the parser of
    [build_parser]: a namespace, or [SystemExit] (help, usage error). *)
Definition main (parse_args : list str -> result Namespace) (w : world)
           (argv : list str) : M event Z :=
  args <- lift (parse_args argv) ;;
  products <- lift (build_products args) ;;
  (if insert args && nonempty products
   then supabase_upsert_products w products else ret tt) ;;
  print (RunSucceeded (length products)) ;;
  for_each products (fun p => print (ItemTitle (title p))) ;;
  ret 0.

(** The script run as a program: [_ = main()] on [sys.argv[1:]]. *)
Definition script (parse_args : list str -> result Namespace) (w : world)
           (sys_argv : list str) : M event unit :=
  _ <- main parse_args w sys_argv ;; ret tt.

(** [choices=["scrape", "api"]] *)
Definition is_choice (v : str) : bool :=
  str_eqb v (lit "scrape") || str_eqb v (lit "api").

(** [parser.parse_args(argv)] for the parser of [build_parser], as
    [argparse] of CPython 3.11 answers.  A long option may be abbreviated to
    any prefix of at least one letter ([--i], [--mo]) and may carry its value
    after [=]; [-h] and [--help] end with status 0 where they stand; a bad or
    missing value of [--mode] and a value given to [--insert] or [--help] are
    usage errors (status 2) where they stand; any other token, and
    everything from a [--] on, is reported as unrecognized (status 2) when
    the end is reached.  A token [--=...] is ambiguous and is refused before
    anything else. *)
Inductive option_name : Type := OptHelp | OptMode | OptInsert.

Definition starts_with (prefix s : str) : bool :=
  str_eqb (firstn (length prefix) s) prefix.

(** [s.split('=', 1)] *)
Fixpoint split_eq (s : str) : str * option str :=
  match s with
  | [] => ([], None)
  | c :: s' =>
      if c =? 61 then ([], Some s')
      else let (a, b) := split_eq s' in (c :: a, b)
  end.

Definition long_option (o : str) : option option_name :=
  if (length o <? 3)%nat then None
  else if starts_with o (lit "--help") then Some OptHelp
  else if starts_with o (lit "--mode") then Some OptMode
  else if starts_with o (lit "--insert") then Some OptInsert
  else None.

Definition ambiguous (a : str) : bool := starts_with (lit "--=") a.

(** The tokens before the first [--], and whether there is one. *)
Fixpoint before_separator (argv : list str) : list str * bool :=
  match argv with
  | [] => ([], false)
  | a :: rest =>
      if str_eqb a (lit "--") then ([], true)
      else let (l, sep) := before_separator rest in (a :: l, sep)
  end.

Fixpoint parse_from (argv : list str) (ns : Namespace) (extras : bool)
  : result Namespace :=
  match argv with
  | [] => if extras then Raise (SystemExit 2) else Ok ns
  | a :: rest =>
      if starts_with (lit "-h") a then
        if forallb (Z.eqb 104) (skipn 1 a) then Raise (SystemExit 0)
        else Raise (SystemExit 2)
      else
        let (o, explicit) := split_eq a in
        match long_option o, explicit with
        | Some OptHelp, None => Raise (SystemExit 0)
        | Some OptInsert, None => parse_from rest (mkNamespace (mode ns) true) extras
        | Some OptMode, Some v =>
            if is_choice v then parse_from rest (mkNamespace v (insert ns)) extras
            else Raise (SystemExit 2)
        | Some OptMode, None =>
            match rest with
            | v :: rest' =>
                if is_choice v
                then parse_from rest' (mkNamespace v (insert ns)) extras
                else Raise (SystemExit 2)
            | [] => Raise (SystemExit 2)
            end
        | Some _, Some _ => Raise (SystemExit 2)
        | None, _ => parse_from rest ns true
        end
  end.

Definition parse_args_plain (argv : list str) : result Namespace :=
  let (tokens, sep) := before_separator argv in
  if existsb ambiguous tokens then Raise (SystemExit 2)
  else parse_from tokens (mkNamespace (lit "scrape") false) sep.

End MymallScraper.

(** ** scripts/sync_products.py *)

Module SyncProducts.

(** What [requests.get] meets: the call raises, or a response comes back
    whose body parses as JSON ([Some]) or does not ([None]). *)
Inductive get_outcome : Type :=
| GetRaises
| GetResponse (status_code : Z) (body : option json).

(** What the store client's [execute()] does: raises, or returns a
    response object.  The object has a [data] attribute; whether it has an
    [error] attribute depends on the client ([None]: it has none, as with
    the current client, and reading it raises [AttributeError]). *)
Inductive store_outcome : Type :=
| StoreRaises
| StoreResponse (data : json) (error : option json).

(** The messages handed to [logging]. *)
Inductive message : Type :=
| MissingEnvironment            (* Missing one or more required ... *)
| Fetching (api_url : str)      (* Fetching products from API: ... *)
| FetchFailed (e : exn)         (* Error fetching products from API: e *)
| NothingToUpsert               (* No products to upsert. *)
| Upserting (count : nat)       (* Upserting n products into Supabase... *)
| Upserted (count : nat)        (* Successfully upserted n products. *)
| UpsertRejected (error : json) (* Failed to upsert products. Response: *)
| NothingFetched.               (* No products fetched. Exiting. *)

Inductive level : Type := INFO | WARNING | ERROR.

Inductive event : Type :=
| Log (lv : level) (m : message)
| HttpGet (url : str) (timeout : option Z)
| StoreUpsert (table : str) (rows : json) (on_conflict : list str).

Record world : Type := mkWorld {
  SUPABASE_URL : option str;
  SUPABASE_KEY : option str;
  MEMBER_ID : option str;
  API_URL : option str;
  create_client : str -> str -> bool;   (* false: the constructor raises *)
  get : str -> get_outcome;
  execute : json -> store_outcome
}.

Local Open Scope py_scope.

Definition log (lv : level) (m : message) : M event unit := emit (Log lv m).

Definition env_value (v : option str) : str :=
  match v with Some s => s | None => [] end.

(** [x.get('items', [])]: only a [dict] has [get]. *)
Definition get_items (products_data : json) : M event json :=
  match products_data with
  | JDict d =>
      match dict_get (lit "items") d with
      | Some v => ret v
      | None => ret (JList [])
      end
  | _ => raise AttributeError
  end.

Definition raise_for_status (status_code : Z) : M event unit :=
  if (400 <=? status_code) && (status_code <? 600) then raise HTTPError
  else ret tt.

(** [response.json()] *)
Definition response_json (body : option json) : M event json :=
  match body with
  | Some j => ret j
  | None => raise JSONDecodeError
  end.

(** [requests.get(API_URL)]: no other argument is passed. *)
Definition requests_get (w : world) (url : str) : M event (Z * option json) :=
  emit (HttpGet url None) ;;
  match get w url with
  | GetRaises => raise RequestException
  | GetResponse c b => ret (c, b)
  end.

Definition fetch_products (w : world) : M event json :=
  try_except
    (log INFO (Fetching (env_value (API_URL w))) ;;
     response <- requests_get w (env_value (API_URL w)) ;;
     raise_for_status (fst response) ;;
     products_data <- response_json (snd response) ;;
     get_items products_data)
    is_RequestException
    (fun e => log ERROR (FetchFailed e) ;; ret (JList [])).

(** [for product in products: product['member_id'] = MEMBER_ID] on a list.
    The dicts are updated in place: the first component is the list as it
    stands when the loop ends or raises. *)
Fixpoint add_member_id (member : str) (items : list json)
  : list json * result unit :=
  match items with
  | [] => ([], Ok tt)
  | JDict d :: rest =>
      let (rest', r) := add_member_id member rest in
      (JDict (dict_set (lit "member_id") (JStr member) d) :: rest', r)
  | other :: rest => (other :: rest, Raise TypeError)
  end.

(** A fetched dict after the loop: [member_id] set, the rest as it was. *)
Definition tagged (w : world) (d : list (str * json)) : json :=
  JDict (dict_set (lit "member_id") (JStr (env_value (MEMBER_ID w))) d).

(** The same loop on whatever [products] is.  A [str] yields characters and
    a [dict] yields its keys, neither of which takes an item assignment; a
    number or [True] cannot be iterated.  Only reached on truthy values. *)
Definition tag_products (member : str) (products : json)
  : json * result unit :=
  match products with
  | JList items =>
      let (items', r) := add_member_id member items in (JList items', r)
  | other => (other, Raise TypeError)
  end.

(** [supabase.from_('products').upsert(products, on_conflict=['id']).execute()] *)
Definition store_upsert (w : world) (rows : json)
  : M event (json * option json) :=
  emit (StoreUpsert (lit "products") rows [lit "id"]) ;;
  match execute w rows with
  | StoreRaises => raise StoreClientError
  | StoreResponse data error => ret (data, error)
  end.

(** [response.error] *)
Definition response_error (error : option json) : M event json :=
  match error with
  | Some e => ret e
  | None => raise AttributeError
  end.

(** [upsert_products(products)]: the list object after the call, and the
    effects of the call. *)
Definition upsert_products (w : world) (products : json)
  : json * M event unit :=
  if negb (truthy products) then (products, log INFO NothingToUpsert)
  else
    let (products', tagged) := tag_products (env_value (MEMBER_ID w)) products in
    (products',
     lift tagged ;;
     n <- lift (py_len products') ;;
     log INFO (Upserting n) ;;
     response <- store_upsert w products' ;;
     if truthy (fst response) then
       k <- lift (py_len (fst response)) ;;
       log INFO (Upserted k)
     else
       err <- response_error (snd response) ;;
       log ERROR (UpsertRejected err)).

(** [all([SUPABASE_URL, SUPABASE_KEY, MEMBER_ID, API_URL])] *)
Definition configured (w : world) : bool :=
  env_truthy (SUPABASE_URL w) && env_truthy (SUPABASE_KEY w)
  && env_truthy (MEMBER_ID w) && env_truthy (API_URL w).

(** The module body followed by the [__main__] block. *)
Definition script (w : world) : M event unit :=
  (if configured w then ret tt
   else log ERROR MissingEnvironment ;; raise (SystemExit 1)) ;;
  (if create_client w (env_value (SUPABASE_URL w)) (env_value (SUPABASE_KEY w))
   then ret tt else raise StoreClientError) ;;
  products <- fetch_products w ;;
  if truthy products then snd (upsert_products w products)
  else log WARNING NothingFetched.

End SyncProducts.

(** ** Predicates used in the statements *)

(** A lowercase hexadecimal digit: [0-9a-f]. *)
Definition is_lower_hex (c : Z) : bool :=
  ((48 <=? c) && (c <=? 57)) || ((97 <=? c) && (c <=? 102)).

Definition octet (b : Z) : Prop := 0 <= b < 256.

Definition word32 (x : Z) : Prop := 0 <= x < 2 ^ 32.

Definition words32 (s : SHA1.state) : Prop :=
  word32 (SHA1.h0 s) /\ word32 (SHA1.h1 s) /\ word32 (SHA1.h2 s) /\
  word32 (SHA1.h3 s) /\ word32 (SHA1.h4 s).

(** [obj[k]] on a JSON object, and its keys. *)
Definition field (k : str) (j : json) : option json :=
  match j with
  | JDict d => dict_get k d
  | _ => None
  end.

Definition json_keys (j : json) : list str :=
  match j with
  | JDict d => dict_keys d
  | _ => []
  end.

(** The eight fields of the data model, in declaration order. *)
Definition PRODUCT_FIELDS : list str :=
  [ lit "id"; lit "title"; lit "url"; lit "price";
    lit "currency"; lit "image"; lit "stock"; lit "source" ].

(** [p] is one of the records in the body of a POST that a run of
    [mymall_scraper.py] issues. *)
Definition scraper_sends (parse : list str -> result MymallScraper.Namespace)
           (w : MymallScraper.world) (argv : list str)
           (p : MymallScraper.Product) : Prop :=
  exists req ps,
    In (MymallScraper.HttpPost req) (trace (MymallScraper.main parse w argv)) /\
    MymallScraper.req_data req = JList (map MymallScraper.asdict ps) /\
    In p ps.

(** ** Concrete runs *)

Module Runs.

Definition store : str := lit "https://store.example".
Definition key : str := lit "service-role-key".
Definition api : str := lit "https://api.example/feed".
Definition member : str := lit "af000049855".

(** The first script with the store configured and answering 201, and with
    no store configured at all. *)
Definition scraper_online : MymallScraper.world :=
  MymallScraper.mkWorld (Some store) (Some key) true
    (fun _ => MymallScraper.PostResponse 201 (lit "[]")).

Definition scraper_offline : MymallScraper.world :=
  MymallScraper.mkWorld None None true (fun _ => MymallScraper.PostRaises).

Definition argv_api_insert : list str := [lit "--mode"; lit "api"; lit "--insert"].
Definition argv_api : list str := [lit "--mode"; lit "api"].

Definition args_api_insert : MymallScraper.Namespace :=
  MymallScraper.mkNamespace (lit "api") true.
Definition args_api : MymallScraper.Namespace :=
  MymallScraper.mkNamespace (lit "api") false.

Definition api_product : MymallScraper.Product :=
  MymallScraper.mkProduct
    (lit "7d4b2bfecaac0c95a4d877749f8e5486c9475665")
    (lit "API " ++ [0x6E2C; 0x8A66; 0x5546; 0x54C1])
    (lit "https://www.mymall.com.tw/pro-456")
    (Some 499) (lit "TWD") None (Some 50) (lit "api").

(** The second script with its four variables set, the API answering 200
    with [body], and the store client behaving as [store_does]. *)
Definition sync_world (body : json) (store_does : json -> SyncProducts.store_outcome)
  : SyncProducts.world :=
  SyncProducts.mkWorld (Some store) (Some key) (Some member) (Some api)
    (fun _ _ => true)
    (fun _ => SyncProducts.GetResponse 200 (Some body))
    store_does.

Definition feed (items : list json) : json := JDict [(lit "items", JList items)].

(** The store acknowledges by returning the rows it was given. *)
Definition store_echo (rows : json) : SyncProducts.store_outcome :=
  SyncProducts.StoreResponse rows None.

(** The store client raises (connection refused, 4xx/5xx answer). *)
Definition store_down (rows : json) : SyncProducts.store_outcome :=
  SyncProducts.StoreRaises.

(** Raw records as the API may send them. *)
Definition raw_foreign_id : list (str * json) :=
  [ (lit "id", JStr (lit "1"));
    (lit "url", JStr (lit "https://www.mymall.com.tw/pro-456")) ].

Definition raw_without_url : list (str * json) :=
  [ (lit "id", JStr (lit "7")); (lit "title", JStr (lit "untitled")) ].

Definition raw_full : list (str * json) :=
  [ (lit "id", JStr (lit "1"));
    (lit "title", JStr (lit "item"));
    (lit "url", JStr (lit "https://www.mymall.com.tw/pro-456"));
    (lit "price", JInt 499);
    (lit "currency", JStr (lit "TWD"));
    (lit "image", JNull);
    (lit "stock", JInt 50);
    (lit "source", JStr (lit "api")) ].

End Runs.

(** ** Further predicates and runs *)

(** The status codes on which [raise_for_status] raises. *)
Definition error_status (c : Z) : bool := (400 <=? c) && (c <? 600).

(** A [str] of ASCII characters only. *)
Definition ascii_only (u : str) : Prop := Forall (fun c => 0 <= c < 128) u.

Definition is_dict (j : json) : bool :=
  match j with
  | JDict _ => true
  | _ => false
  end.

(** The requests among the events of a run. *)
Definition is_post (e : MymallScraper.event) : bool :=
  match e with
  | MymallScraper.HttpPost _ => true
  | _ => false
  end.

Definition is_get (e : SyncProducts.event) : bool :=
  match e with
  | SyncProducts.HttpGet _ _ => true
  | _ => false
  end.

Definition is_write (e : SyncProducts.event) : bool :=
  match e with
  | SyncProducts.StoreUpsert _ _ _ => true
  | _ => false
  end.

(** UTF-8 read back, after RFC 3629: one to four octets per code point, the
    lead octet giving the length; continuation octets are [10xxxxxx];
    overlong forms, surrogates and values above U+10FFFF are refused. *)
Definition continuation (b : Z) : bool := (0x80 <=? b) && (b <? 0xC0).

Fixpoint utf8_decode (bs : bytes) : option str :=
  match bs with
  | [] => Some []
  | b0 :: r0 =>
      if (0 <=? b0) && (b0 <? 0x80) then option_map (cons b0) (utf8_decode r0)
      else if (0xC2 <=? b0) && (b0 <? 0xE0) then
        match r0 with
        | b1 :: r1 =>
            if continuation b1
            then option_map (cons ((b0 - 0xC0) * 64 + (b1 - 0x80))) (utf8_decode r1)
            else None
        | _ => None
        end
      else if (0xE0 <=? b0) && (b0 <? 0xF0) then
        match r0 with
        | b1 :: b2 :: r2 =>
            let c := (b0 - 0xE0) * 4096 + (b1 - 0x80) * 64 + (b2 - 0x80) in
            if continuation b1 && continuation b2 && (0x800 <=? c)
               && negb ((0xD800 <=? c) && (c <? 0xE000))
            then option_map (cons c) (utf8_decode r2)
            else None
        | _ => None
        end
      else if (0xF0 <=? b0) && (b0 <? 0xF5) then
        match r0 with
        | b1 :: b2 :: b3 :: r3 =>
            let c := (b0 - 0xF0) * 262144 + (b1 - 0x80) * 4096
                     + (b2 - 0x80) * 64 + (b3 - 0x80) in
            if continuation b1 && continuation b2 && continuation b3
               && (0x10000 <=? c) && (c <=? 0x10FFFF)
            then option_map (cons c) (utf8_decode r3)
            else None
        | _ => None
        end
      else None
  end.

Module MoreRuns.

(** The first script against a store that answers 503 with a long body,
    and against a network that is down. *)
Definition long_body : str := repeat 0x61 450.

Definition scraper_rejected : MymallScraper.world :=
  MymallScraper.mkWorld (Some Runs.store) (Some Runs.key) true
    (fun _ => MymallScraper.PostResponse 503 long_body).

Definition scraper_unreachable : MymallScraper.world :=
  MymallScraper.mkWorld (Some Runs.store) (Some Runs.key) true
    (fun _ => MymallScraper.PostRaises).

(** The second script against an API that is down, one that answers with a
    given status and body, and a store that returns no data. *)
Definition sync_api_down : SyncProducts.world :=
  SyncProducts.mkWorld (Some Runs.store) (Some Runs.key) (Some Runs.member)
    (Some Runs.api) (fun _ _ => true) (fun _ => SyncProducts.GetRaises)
    Runs.store_echo.

Definition sync_api_answers (status_code : Z) (body : option json)
  : SyncProducts.world :=
  SyncProducts.mkWorld (Some Runs.store) (Some Runs.key) (Some Runs.member)
    (Some Runs.api) (fun _ _ => true)
    (fun _ => SyncProducts.GetResponse status_code body)
    Runs.store_echo.

Definition store_silent (rows : json) : SyncProducts.store_outcome :=
  SyncProducts.StoreResponse (JList []) (Some (JStr (lit "duplicate key"))).

(** The same answer from a client whose response has no [error]. *)
Definition store_silent_bare (rows : json) : SyncProducts.store_outcome :=
  SyncProducts.StoreResponse (JList []) None.

(** A raw record that already carries a [member_id]. *)
Definition raw_with_member : list (str * json) :=
  [ (lit "member_id", JStr (lit "someone-else"));
    (lit "id", JStr (lit "9")) ].

End MoreRuns.

(** * Properties *)

(** ** Strings and dictionaries *)

Lemma str_eqb_eq (a b : str) : str_eqb a b = true <-> a = b.
Proof.
  unfold str_eqb. destruct (list_eq_dec Z.eq_dec a b); split; congruence.
Qed.

Lemma str_eqb_refl (a : str) : str_eqb a a = true.
Proof. now apply str_eqb_eq. Qed.

Lemma str_eqb_neq (a b : str) : a <> b -> str_eqb a b = false.
Proof.
  intro H. destruct (str_eqb a b) eqn:E; [|reflexivity].
  apply str_eqb_eq in E. contradiction.
Qed.

(** ** The effect monad *)

Lemma bind_pure {E A B} (t : list E) (a : A) (k : A -> M E B) :
  bind (t, Ok a) k = (t ++ fst (k a), snd (k a)).
Proof. unfold bind. now destruct (k a). Qed.

Lemma bind_lift_ok {E A B} (a : A) (k : A -> M E B) :
  bind (lift (Ok a)) k = k a.
Proof. unfold bind, lift. now destruct (k a). Qed.

Lemma bind_trace {E A B} (m : M E A) (k : A -> M E B) :
  trace (bind m k)
  = trace m ++ match outcome m with
               | Ok a => trace (k a)
               | Raise _ => []
               end.
Proof.
  destruct m as [t [a|e]]; unfold bind, trace, outcome; simpl.
  - now destruct (k a).
  - now rewrite app_nil_r.
Qed.

Lemma bind_outcome {E A B} (m : M E A) (k : A -> M E B) :
  outcome (bind m k)
  = match outcome m with
    | Ok a => outcome (k a)
    | Raise e => Raise e
    end.
Proof.
  destruct m as [t [a|e]]; unfold bind, outcome; simpl; [|reflexivity].
  now destruct (k a).
Qed.

(** ** The identifier generator *)

Section Identifier.

Lemma hexdigit_lower (x : Z) : is_lower_hex (SHA1.hexdigit x) = true.
Proof.
  unfold SHA1.hexdigit.
  assert (H : 0 <= Z.land x 0xF < 16).
  { change 0xF with (Z.ones 4). rewrite Z.land_ones by lia.
    apply Z.mod_pos_bound. reflexivity. }
  remember (Z.land x 0xF) as n eqn:E. clear E.
  assert (Hn : (Z.to_nat n < 16)%nat) by lia.
  remember (Z.to_nat n) as k eqn:Ek. clear Ek H.
  do 16 (destruct k as [|k]; [reflexivity|]). lia.
Qed.

Lemma hex32_lower (w : Z) : Forall (fun c => is_lower_hex c = true) (SHA1.hex32 w).
Proof.
  unfold SHA1.hex32. apply Forall_map, Forall_forall.
  intros sh _. apply hexdigit_lower.
Qed.

Lemma hexdigest_length (msg : bytes) : length (SHA1.hexdigest msg) = 40%nat.
Proof.
  unfold SHA1.hexdigest, SHA1.hex32. cbv zeta.
  repeat rewrite length_app. repeat rewrite length_map. reflexivity.
Qed.

Lemma hexdigest_lower (msg : bytes) :
  Forall (fun c => is_lower_hex c = true) (SHA1.hexdigest msg).
Proof.
  unfold SHA1.hexdigest. cbv zeta.
  repeat (apply Forall_app; split); apply hex32_lower.
Qed.

(** The five words of a digest are 32-bit words, so the forty digits of
    [hexdigest] are the whole digest. *)
Lemma add32_word (a b : Z) : word32 (SHA1.add32 a b).
Proof. unfold word32, SHA1.add32, SHA1.modulus. apply Z.mod_pos_bound. reflexivity. Qed.

Lemma compress_words32 (h : SHA1.state) (block : list Z) :
  words32 (SHA1.compress h block).
Proof. unfold words32, SHA1.compress. cbn [SHA1.h0 SHA1.h1 SHA1.h2 SHA1.h3 SHA1.h4].
  repeat split; apply add32_word.
Qed.

Lemma process_words32 (n : nat) (ws : list Z) (h : SHA1.state) :
  words32 h -> words32 (SHA1.process n ws h).
Proof.
  revert ws h. induction n as [|n IH]; intros ws h Hh; [exact Hh|].
  cbn [SHA1.process]. apply IH, compress_words32.
Qed.

Lemma digest_words32 (msg : bytes) : words32 (SHA1.digest msg).
Proof.
  unfold SHA1.digest. apply process_words32.
  unfold words32, word32. cbn. lia.
Qed.

Lemma encode_total (u : str) :
  UTF8.well_formed u -> exists bs, UTF8.encode u = Ok bs.
Proof.
  induction 1 as [|c u Hc _ [bs IH]]; simpl.
  - now exists [].
  - rewrite Hc, IH. eauto.
Qed.

(** The codec raises exactly on the strings that hold a surrogate (or a
    number that is no code point). *)
Lemma encode_raises (u : str) :
  ~ UTF8.well_formed u -> UTF8.encode u = Raise UnicodeEncodeError.
Proof.
  induction u as [|c u IH]; intro H.
  - exfalso. apply H. constructor.
  - simpl. destruct (UTF8.scalar c) eqn:Hc; [|reflexivity].
    rewrite IH; [reflexivity|].
    intro Hu. apply H. now constructor.
Qed.

Lemma lor_octet (a b : Z) : 0 <= a < 256 -> 0 <= b < 256 -> octet (Z.lor a b).
Proof.
  intros Ha Hb. unfold octet. split.
  - apply Z.lor_nonneg. lia.
  - destruct (Z.eq_dec (Z.lor a b) 0) as [->|Hz]; [lia|].
    assert (0 < Z.lor a b) by (assert (0 <= Z.lor a b) by (apply Z.lor_nonneg; lia); lia).
    change 256 with (2 ^ 8). apply Z.log2_lt_pow2; [assumption|].
    rewrite Z.log2_lor by lia.
    assert (La : Z.log2 a < 8).
    { destruct (Z.eq_dec a 0) as [->|]; [reflexivity|].
      apply Z.log2_lt_pow2; lia. }
    assert (Lb : Z.log2 b < 8).
    { destruct (Z.eq_dec b 0) as [->|]; [reflexivity|].
      apply Z.log2_lt_pow2; lia. }
    lia.
Qed.

Lemma shiftr_bound (c n k : Z) :
  0 <= n -> 0 <= c < k * 2 ^ n -> 0 <= Z.shiftr c n < k.
Proof.
  intros Hn Hc. rewrite Z.shiftr_div_pow2 by assumption.
  assert (0 < 2 ^ n) by (apply Z.pow_pos_nonneg; lia).
  split.
  - apply Z.div_pos; lia.
  - apply Z.div_lt_upper_bound; lia.
Qed.

Lemma cont_octet (c sh : Z) : octet (UTF8.cont c sh).
Proof.
  unfold UTF8.cont. apply lor_octet; [lia|].
  change 0x3F with (Z.ones 6). rewrite Z.land_ones by lia.
  pose proof (Z.mod_pos_bound (Z.shiftr c sh) (2 ^ 6) eq_refl). lia.
Qed.

Lemma encode_cp_octets (c : Z) :
  UTF8.scalar c = true -> Forall octet (UTF8.encode_cp c).
Proof.
  intro Hc. unfold UTF8.scalar in Hc.
  assert (R : 0 <= c <= 0x10FFFF) by lia.
  unfold UTF8.encode_cp.
  destruct (c <? 0x80) eqn:E1.
  { apply Forall_cons; [unfold octet; lia | apply Forall_nil]. }
  destruct (c <? 0x800) eqn:E2.
  { repeat (apply Forall_cons || apply Forall_nil); try apply cont_octet.
    apply lor_octet; [lia|].
    pose proof (shiftr_bound c 6 32 ltac:(lia) ltac:(lia)). lia. }
  destruct (c <? 0x10000) eqn:E3.
  { repeat (apply Forall_cons || apply Forall_nil); try apply cont_octet.
    apply lor_octet; [lia|].
    pose proof (shiftr_bound c 12 16 ltac:(lia) ltac:(lia)). lia. }
  repeat (apply Forall_cons || apply Forall_nil); try apply cont_octet.
  apply lor_octet; [lia|].
  pose proof (shiftr_bound c 18 8 ltac:(lia) ltac:(lia)). lia.
Qed.

Lemma encode_octets (u : str) (bs : bytes) :
  UTF8.encode u = Ok bs -> Forall octet bs.
Proof.
  revert bs. induction u as [|c u IH]; simpl; intros bs H.
  - injection H as <-. constructor.
  - destruct (UTF8.scalar c) eqn:Hc; [|discriminate].
    destruct (UTF8.encode u) as [bs'|]; [|discriminate].
    injection H as <-. apply Forall_app. split.
    + now apply encode_cp_octets.
    + now apply IH.
Qed.

End Identifier.

(** Known answers: FIPS 180-4 test messages and the codec on 1- to 4-byte
    code points. *)
Example sha1_abc :
  SHA1.hexdigest (lit "abc") = lit "a9993e364706816aba3e25717850c26c9cd0d89d".
Proof. vm_compute. reflexivity. Qed.

Example sha1_empty :
  SHA1.hexdigest [] = lit "da39a3ee5e6b4b0d3255bfef95601890afd80709".
Proof. vm_compute. reflexivity. Qed.

Example sha1_two_blocks :
  SHA1.hexdigest (lit "abcdbcdecdefdefgefghfghighijhijkijkljklmklmnlmnomnopnopq")
  = lit "84983e441c3bd26ebaae4aa1f95129e5e54670f1".
Proof. vm_compute. reflexivity. Qed.

Example utf8_widths :
  UTF8.encode [0x41; 0xE9; 0x6E2C; 0x1F600]
  = Ok [0x41; 0xC3; 0xA9; 0xE6; 0xB8; 0xAC; 0xF0; 0x9F; 0x98; 0x80].
Proof. vm_compute. reflexivity. Qed.

Example make_id_scrape_url :
  make_id (lit "https://www.mymall.com.tw/pro-123?member=af000049855")
  = Ok (lit "f4f3561a5486bd899d2596e4fa82109db42bb297").
Proof. vm_compute. reflexivity. Qed.

Example make_id_api_url :
  make_id (lit "https://www.mymall.com.tw/pro-456")
  = Ok (lit "7d4b2bfecaac0c95a4d877749f8e5486c9475665").
Proof. vm_compute. reflexivity. Qed.

Example make_id_long_non_ascii :
  make_id (repeat 0x78 200 ++ [0x1F600])
  = Ok (lit "56d90d2573c9c940217a111e9514238ccedc2497").
Proof. vm_compute. reflexivity. Qed.

Example sha1_padding_boundaries :
  map (fun n => SHA1.hexdigest (repeat 0x61 n)) [55; 56; 64]%nat
  = [ lit "c1c8bbdc22796e28c0e15163d20899b65621d65a";
      lit "c2db330f6083854c99d4b5bfb6e8f29f201be699";
      lit "0098ba824b5c16427bd7a1122a5a442a25ec644d" ].
Proof. vm_compute. reflexivity. Qed.

Example make_id_width_boundaries :
  make_id [0x7FF; 0x800; 0xFFFF; 0x10000; 0x10FFFF; 0x7F; 0x80]
  = Ok (lit "1a04493fa5d734382b26142283c9dd5c40beb8bf").
Proof. vm_compute. reflexivity. Qed.

Example make_id_surrogate : make_id [0x68; 0xDC80] = Raise UnicodeEncodeError.
Proof. reflexivity. Qed.

(** ** mymall_scraper.py: the shape of a run *)

Section Scraper.
Import MymallScraper.

Variable parse : list str -> result Namespace.
Variable w : world.

Lemma opt_json_int_inj (a b : option Z) :
  opt_json JInt a = opt_json JInt b -> a = b.
Proof. destruct a, b; simpl; congruence. Qed.

Lemma opt_json_str_inj (a b : option str) :
  opt_json JStr a = opt_json JStr b -> a = b.
Proof. destruct a, b; simpl; congruence. Qed.

Lemma asdict_inj (p q : Product) : asdict p = asdict q -> p = q.
Proof.
  destruct p, q. unfold asdict. simpl. intro H.
  injection H as H1 H2 H3 H4 H5 H6 H7 H8.
  apply opt_json_int_inj in H4, H7. apply opt_json_str_inj in H6.
  congruence.
Qed.

Lemma map_asdict_inj (ps qs : list Product) :
  map asdict ps = map asdict qs -> ps = qs.
Proof.
  revert qs. induction ps as [|p ps IH]; intros [|q qs] H; cbn [map] in H;
    try discriminate; [reflexivity|].
  pose proof (f_equal (hd JNull) H) as H1.
  pose proof (f_equal (@tl json) H) as H2. cbn [hd tl] in H1, H2.
  f_equal; [now apply asdict_inj | now apply IH].
Qed.

(** Every record [main] builds carries the hash of its own URL. *)
Lemma build_products_id (args : Namespace) (ps : list Product) :
  build_products args = Ok ps ->
  Forall (fun p => make_id (url p) = Ok (id p)) ps.
Proof.
  unfold build_products.
  destruct (str_eqb (mode args) (lit "scrape")).
  - destruct (make_id _) as [i|e] eqn:E; [|discriminate].
    intro H. injection H as <-. repeat constructor. exact E.
  - destruct (str_eqb (mode args) (lit "api")).
    + destruct (make_id _) as [i|e] eqn:E; [|discriminate].
      intro H. injection H as <-. repeat constructor. exact E.
    + intro H. injection H as <-. constructor.
Qed.

(** Building never raises: both literal URLs are plain ASCII. *)
Lemma build_products_total (args : Namespace) :
  exists ps, build_products args = Ok ps.
Proof.
  unfold build_products.
  destruct (str_eqb (mode args) (lit "scrape")).
  - destruct (make_id _) as [i|e] eqn:E; [eauto|]. vm_compute in E. discriminate.
  - destruct (str_eqb (mode args) (lit "api")); [|eauto].
    destruct (make_id _) as [i|e] eqn:E; [eauto|]. vm_compute in E. discriminate.
Qed.

(** The upsert client returns normally whatever happens; its trace is at most
    one POST of [upsert_request], followed by printed lines. *)
Lemma upsert_shape (ps : list Product) :
  exists pre lines,
    supabase_upsert_products w ps = (pre ++ map Print lines, Ok tt) /\
    (pre = [] \/
     (env_truthy (SUPABASE_URL w) = true /\
      env_truthy (SUPABASE_SERVICE_ROLE_KEY w) = true /\
      pre = [HttpPost (upsert_request w ps)])).
Proof.
  unfold supabase_upsert_products.
  destruct (env_truthy (SUPABASE_URL w)) eqn:Hu; simpl;
    [|exists [], [InfoConfigMissing]; auto].
  destruct (env_truthy (SUPABASE_SERVICE_ROLE_KEY w)) eqn:Hk; simpl;
    [|exists [], [InfoConfigMissing]; auto].
  destruct (requests_imported w); simpl;
    [|exists [], [InfoRequestsMissing]; auto].
  unfold requests_post, local_r, raise_for_status.
  destruct (post w (upsert_request w ps)) as [|c t]; simpl.
  - exists [HttpPost (upsert_request w ps)], [UpsertFailed RequestException]. auto.
  - destruct ((400 <=? c) && (c <? 600)); simpl.
    + exists [HttpPost (upsert_request w ps)],
             [UpsertFailed HTTPError; UpsertResponse c (firstn 400 t)]. auto.
    + exists [HttpPost (upsert_request w ps)],
             [UpsertSucceeded (length (map asdict ps))]. auto.
Qed.

Lemma for_each_titles (ps : list Product) :
  for_each ps (fun p => print (ItemTitle (title p)))
  = (map Print (map (fun p => ItemTitle (title p)) ps), Ok tt).
Proof.
  induction ps as [|p ps IH]; simpl; [reflexivity|].
  unfold bind, print, emit in *. simpl. rewrite IH. reflexivity.
Qed.

(** A run whose argument vector the parser accepts: the optional upsert,
    then the success line and one line per record, and the value 0. *)
Lemma main_tail (ps : list Product) (m : M event unit) (t : list event) :
  m = (t, Ok tt) ->
  bind m (fun _ =>
    bind (print (RunSucceeded (length ps))) (fun _ =>
      bind (for_each ps (fun p => print (ItemTitle (title p)))) (fun _ => ret 0)))
  = (t ++ map Print (RunSucceeded (length ps)
                      :: map (fun p => ItemTitle (title p)) ps), Ok 0).
Proof.
  intros ->. rewrite for_each_titles. unfold print, emit, ret.
  rewrite !bind_pure. cbn [fst snd app map]. rewrite app_nil_r. reflexivity.
Qed.

Lemma main_shape (argv : list str) (args : Namespace) :
  parse argv = Ok args ->
  exists ps pre lines,
    build_products args = Ok ps /\
    main parse w argv
    = (pre ++ map Print (lines ++ RunSucceeded (length ps)
                               :: map (fun p => ItemTitle (title p)) ps), Ok 0) /\
    ((pre = [] /\ (insert args && nonempty ps = false -> lines = [])) \/
     (insert args = true /\ ps <> [] /\
      env_truthy (SUPABASE_URL w) = true /\
      env_truthy (SUPABASE_SERVICE_ROLE_KEY w) = true /\
      pre = [HttpPost (upsert_request w ps)])).
Proof.
  intro Hp. destruct (build_products_total args) as [ps Hps].
  unfold main. rewrite Hp, bind_lift_ok, Hps, bind_lift_ok.
  destruct (insert args && nonempty ps) eqn:Hi.
  - destruct (upsert_shape ps) as (pre & lines & Hup & Hpre).
    exists ps, pre, lines. split; [reflexivity|]. split.
    + rewrite (main_tail ps _ _ Hup), map_app, <- app_assoc. reflexivity.
    + apply andb_prop in Hi. destruct Hi as [Hi Hn].
      destruct Hpre as [->|(Hu & Hk & ->)].
      * left. split; [reflexivity|]. rewrite Hi, Hn. discriminate.
      * right. repeat split; try assumption.
        intros ->. discriminate.
  - exists ps, [], []. split; [reflexivity|]. split.
    + rewrite (main_tail ps (ret tt) [] eq_refl). reflexivity.
    + left. auto.
Qed.

Lemma main_parse_error (argv : list str) (e : exn) :
  parse argv = Raise e -> main parse w argv = ([], Raise e).
Proof. intro H. unfold main. rewrite H. reflexivity. Qed.

Lemma in_map_print_post (lines : list line) (req : request) :
  ~ In (HttpPost req) (map Print lines).
Proof.
  induction lines as [|l lines IH]; simpl; [tauto|].
  intros [H|H]; [discriminate | exact (IH H)].
Qed.

(** A POST in the trace of [main] is the one request of the upsert client,
    carrying the records [main] built. *)
Lemma main_post (argv : list str) (req : request) :
  In (HttpPost req) (trace (main parse w argv)) ->
  exists args ps,
    parse argv = Ok args /\ build_products args = Ok ps /\
    insert args = true /\ ps <> [] /\ req = upsert_request w ps.
Proof.
  destruct (parse argv) as [args|e] eqn:Hp.
  - destruct (main_shape argv args Hp) as (ps & pre & lines & Hps & Hm & Hc).
    rewrite Hm. unfold trace. simpl. intro H.
    apply in_app_or in H. destruct H as [H|H];
      [|exfalso; exact (in_map_print_post _ _ H)].
    destruct Hc as [[-> _]|(Hi & Hn & _ & _ & ->)]; [destruct H|].
    destruct H as [H|[]]. injection H as <-.
    exists args, ps. auto.
  - rewrite (main_parse_error argv e Hp). intros [].
Qed.

End Scraper.

(** ** sync_products.py: the shape of a run *)

Section Sync.
Import SyncProducts.

Variable w : world.

Lemma dict_get_set_other {V} (k k' : str) (v : V) (d : list (str * V)) :
  k' <> k -> dict_get k' (dict_set k v d) = dict_get k' d.
Proof.
  intro Hk. induction d as [|[k0 v0] d IH]; simpl.
  - now rewrite (str_eqb_neq k' k Hk).
  - destruct (str_eqb k k0) eqn:E; simpl.
    + apply str_eqb_eq in E. subst k0. now rewrite (str_eqb_neq k' k Hk).
    + now rewrite IH.
Qed.

Lemma dict_get_set_same {V} (k : str) (v : V) (d : list (str * V)) :
  dict_get k (dict_set k v d) = Some v.
Proof.
  induction d as [|[k0 v0] d IH]; simpl.
  - now rewrite str_eqb_refl.
  - destruct (str_eqb k k0) eqn:E; simpl.
    + now rewrite str_eqb_refl.
    + now rewrite E.
Qed.

(** The tagging loop ends normally exactly on a list of dicts, each of which
    it has updated. *)
Lemma add_member_id_ok (m : str) (items items' : list json) :
  add_member_id m items = (items', Ok tt) ->
  exists ds, items = map JDict ds /\
             items' = map (fun d => JDict (dict_set (lit "member_id") (JStr m) d)) ds.
Proof.
  revert items'. induction items as [|x items IH]; intros items' H.
  - injection H as <-. now exists [].
  - cbn [add_member_id] in H. destruct x; try discriminate.
    destruct (add_member_id m items) as [rest' r] eqn:E.
    injection H as <- ->.
    destruct (IH rest' eq_refl) as (ds & -> & ->).
    now exists (d :: ds).
Qed.

Lemma add_member_id_dicts (m : str) (ds : list (list (str * json))) :
  add_member_id m (map JDict ds)
  = (map (fun d => JDict (dict_set (lit "member_id") (JStr m) d)) ds, Ok tt).
Proof.
  induction ds as [|d ds IH]; [reflexivity|].
  cbn [map add_member_id]. now rewrite IH.
Qed.

Lemma add_member_id_length (m : str) (items : list json) :
  length (fst (add_member_id m items)) = length items.
Proof.
  induction items as [|x items IH]; [reflexivity|].
  cbn [add_member_id]. destruct x; try reflexivity.
  destruct (add_member_id m items). simpl in *. now rewrite IH.
Qed.

(** [fetch_products] logs, issues one GET without a timeout, and either
    returns what the body holds under [items] or logs the failure. *)
Lemma fetch_shape :
  exists errors,
    trace (fetch_products w)
    = Log INFO (Fetching (env_value (API_URL w)))
        :: HttpGet (env_value (API_URL w)) None
        :: map (fun e => Log ERROR (FetchFailed e)) errors.
Proof.
  unfold fetch_products, requests_get, raise_for_status, response_json, get_items.
  destruct (get w (env_value (API_URL w))) as [|c b]; simpl.
  - now exists [RequestException].
  - destruct ((400 <=? c) && (c <? 600)); simpl; [now exists [HTTPError]|].
    destruct b as [j|]; simpl; [|now exists [JSONDecodeError]].
    destruct j; simpl; try (now exists []).
    destruct (dict_get (lit "items") d); now exists [].
Qed.

Lemma fetch_no_upsert (table : str) (rows : json) (oc : list str) :
  ~ In (StoreUpsert table rows oc) (trace (fetch_products w)).
Proof.
  destruct fetch_shape as [errors ->]. simpl.
  intros [H|[H|H]]; try discriminate.
  induction errors as [|e errors IH]; simpl in H; [assumption|].
  destruct H as [H|H]; [discriminate | auto].
Qed.

Lemma fetch_no_warning (m : message) :
  ~ In (Log WARNING m) (trace (fetch_products w)).
Proof.
  destruct fetch_shape as [errors ->]. simpl.
  intros [H|[H|H]]; try discriminate.
  induction errors as [|e errors IH]; simpl in H; [assumption|].
  destruct H as [H|H]; [discriminate | auto].
Qed.

(** The effects of [upsert_products] on a list of dicts. *)
Lemma upsert_dicts (ds : list (list (str * json))) :
  ds <> [] ->
  upsert_products w (JList (map JDict ds))
  = (JList (map (tagged w) ds),
     (log INFO (Upserting (length ds)) ;;
      response <- store_upsert w (JList (map (tagged w) ds)) ;;
      if truthy (fst response) then
        k <- lift (py_len (fst response)) ;; log INFO (Upserted k)
      else
        err <- response_error (snd response) ;;
        log ERROR (UpsertRejected err))%py).
Proof.
  intro Hne. unfold upsert_products, tag_products.
  assert (Ht : truthy (JList (map JDict ds)) = true)
    by (destruct ds; [congruence | reflexivity]).
  rewrite Ht. cbn [negb]. rewrite add_member_id_dicts.
  change (fun d => JDict (dict_set (lit "member_id")
    (JStr (env_value (MEMBER_ID w))) d)) with (tagged w).
  f_equal. rewrite bind_lift_ok. cbn [py_len]. rewrite bind_lift_ok.
  now rewrite length_map.
Qed.

(** A store write in the trace of [upsert_products] carries the fetched
    dicts, each tagged. *)
Lemma upsert_products_sent (products : json) (table : str) (rows : json)
      (oc : list str) :
  truthy products = true ->
  In (StoreUpsert table rows oc) (trace (snd (upsert_products w products))) ->
  exists ds,
    ds <> [] /\ products = JList (map JDict ds) /\
    rows = JList (map (tagged w) ds) /\ table = lit "products" /\ oc = [lit "id"].
Proof.
  intros Ht. unfold upsert_products. rewrite Ht. cbn [negb].
  unfold tag_products.
  destruct products as [| | | | |items|]; try (intros []).
  destruct (add_member_id (env_value (MEMBER_ID w)) items) as [items' r] eqn:E.
  cbn [snd]. destruct r as [[]|e]; [|intros []].
  destruct (add_member_id_ok _ _ _ E) as (ds & -> & ->).
  rewrite bind_lift_ok. cbn [py_len]. rewrite bind_lift_ok.
  unfold store_upsert, log, emit.
  intro H. exists ds.
  assert (Hne : ds <> []) by (intros ->; discriminate).
  split; [assumption|]. split; [reflexivity|].
  destruct (execute w _) as [|data error]; simpl in H.
  - destruct H as [H|[H|[]]]; [discriminate|]. now injection H as <- <- <-.
  - destruct (truthy data); simpl in H.
    + destruct (py_len data); simpl in H;
        destruct H as [H|[H|H]]; try discriminate;
        try (now injection H as <- <- <-); try (destruct H as [H|[]]; discriminate);
        destruct H.
    + destruct error as [err|]; simpl in H;
        destruct H as [H|[H|H]]; try discriminate;
        try (now injection H as <- <- <-); try (destruct H as [H|[]]; discriminate);
        destruct H.
Qed.

End Sync.

Section SyncRun.
Import SyncProducts.

Variable w : world.

(** Without the four variables nothing runs: one error is logged and the
    process stops with status 1. *)
Lemma script_unconfigured :
  configured w = false ->
  script w = ([Log ERROR MissingEnvironment], Raise (SystemExit 1)).
Proof. intro H. unfold script. rewrite H. reflexivity. Qed.

Lemma script_configured :
  configured w = true ->
  create_client w (env_value (SUPABASE_URL w)) (env_value (SUPABASE_KEY w)) = true ->
  script w
  = bind (fetch_products w) (fun products =>
      if truthy products then snd (upsert_products w products)
      else log WARNING NothingFetched).
Proof.
  intros Hc Hk. unfold script. rewrite Hc, Hk.
  unfold ret. rewrite !bind_pure. cbn [fst snd app].
  now destruct (bind _ _).
Qed.

(** Every store write of a run carries all the fetched records, each a dict
    tagged with the member id. *)
Lemma script_sent (table : str) (rows : json) (oc : list str) :
  In (StoreUpsert table rows oc) (trace (script w)) ->
  exists ds,
    ds <> [] /\ configured w = true /\
    outcome (fetch_products w) = Ok (JList (map JDict ds)) /\
    rows = JList (map (tagged w) ds) /\
    table = lit "products" /\ oc = [lit "id"].
Proof.
  destruct (configured w) eqn:Hc;
    [|rewrite (script_unconfigured Hc); intros [H|[]]; discriminate].
  destruct (create_client w (env_value (SUPABASE_URL w)) (env_value (SUPABASE_KEY w)))
    eqn:Hk.
  - rewrite (script_configured Hc Hk), bind_trace. intro H.
    apply in_app_or in H. destruct H as [H|H];
      [exfalso; exact (fetch_no_upsert w _ _ _ H)|].
    destruct (outcome (fetch_products w)) as [products|e]; [|destruct H].
    destruct (truthy products) eqn:Ht.
    + destruct (upsert_products_sent w products table rows oc Ht H)
        as (ds & Hne & -> & -> & -> & ->).
      exists ds. repeat split; auto.
    + destruct H as [H|[]]. discriminate.
  - unfold script. rewrite Hc, Hk. intros [].
Qed.

Lemma upsert_dicts_no_warning (ds : list (list (str * json))) (m : message) :
  ds <> [] ->
  ~ In (Log WARNING m) (trace (snd (upsert_products w (JList (map JDict ds))))).
Proof.
  intro Hne. rewrite (upsert_dicts w ds Hne). cbn [snd].
  unfold store_upsert, log, emit.
  destruct (execute w _) as [|data error]; simpl.
  - intros [H|[H|[]]]; discriminate.
  - destruct (truthy data); simpl.
    + destruct (py_len data); simpl; intros [H|[H|H]]; try discriminate;
        try (destruct H as [H|[]]; discriminate); destruct H.
    + destruct error as [err|]; simpl; intros [H|[H|H]]; try discriminate;
        try (destruct H as [H|[]]; discriminate); destruct H.
Qed.

(** With the configuration present, whatever list of dicts the API returns
    is written to the store, whole. *)
Lemma script_forwards (ds : list (list (str * json))) :
  configured w = true ->
  create_client w (env_value (SUPABASE_URL w)) (env_value (SUPABASE_KEY w)) = true ->
  outcome (fetch_products w) = Ok (JList (map JDict ds)) ->
  ds <> [] ->
  In (StoreUpsert (lit "products") (JList (map (tagged w) ds)) [lit "id"])
     (trace (script w)) /\
  forall m, ~ In (Log WARNING m) (trace (script w)).
Proof.
  intros Hc Hk Hf Hne. rewrite (script_configured Hc Hk), bind_trace, Hf.
  assert (Ht : truthy (JList (map JDict ds)) = true)
    by (destruct ds; [congruence | reflexivity]).
  rewrite Ht. split.
  - apply in_or_app. right. rewrite (upsert_dicts w ds Hne). cbn [snd].
    unfold store_upsert, log, emit.
    destruct (execute w _) as [|data error]; simpl; auto.
    destruct (truthy data); simpl; [|destruct error; simpl; auto].
    destruct (py_len data); simpl; auto.
  - intros m H. apply in_app_or in H. destruct H as [H|H].
    + exact (fetch_no_warning w m H).
    + exact (upsert_dicts_no_warning ds m Hne H).
Qed.

(** Nothing in the script catches what the store client raises. *)
Lemma script_store_raises (ds : list (list (str * json))) :
  configured w = true ->
  create_client w (env_value (SUPABASE_URL w)) (env_value (SUPABASE_KEY w)) = true ->
  outcome (fetch_products w) = Ok (JList (map JDict ds)) ->
  ds <> [] ->
  execute w (JList (map (tagged w) ds)) = StoreRaises ->
  outcome (script w) = Raise StoreClientError /\ exit_status (script w) = 1.
Proof.
  intros Hc Hk Hf Hne Hx.
  assert (Ho : outcome (script w) = Raise StoreClientError).
  { rewrite (script_configured Hc Hk), bind_outcome, Hf.
    assert (Ht : truthy (JList (map JDict ds)) = true)
      by (destruct ds; [congruence | reflexivity]).
    rewrite Ht, (upsert_dicts w ds Hne). cbn [snd].
    unfold store_upsert, log, emit. rewrite Hx. reflexivity. }
  split; [exact Ho|]. unfold exit_status. now rewrite Ho.
Qed.

End SyncRun.

(** * The claims *)

Ltac in_concrete_list :=
  vm_compute; repeat (first [left; reflexivity | right]).

Lemma well_formed_api_url :
  UTF8.well_formed (lit "https://www.mymall.com.tw/pro-456").
Proof.
  apply Forall_forall. intros c H. vm_compute in H.
  repeat (destruct H as [<-|H]; [reflexivity|]). destruct H.
Qed.

Section ScraperClaims.
Import MymallScraper.

Lemma scraper_sends_built (parse : list str -> result Namespace) (w : world)
      (argv : list str) (p : Product) :
  scraper_sends parse w argv p ->
  exists args ps,
    parse argv = Ok args /\ build_products args = Ok ps /\
    insert args = true /\ In p ps.
Proof.
  intros (req & ps & Hin & Hdata & Hp).
  destruct (main_post parse w argv req Hin) as (args & ps0 & Ha & Hb & Hi & _ & ->).
  cbn in Hdata.
  assert (ps0 = ps) as -> by (apply map_asdict_inj; congruence).
  exists args, ps. auto.
Qed.

(** C1 (amended: the first script).  Every record a run of
    [mymall_scraper.py] sends to the store has for [id] the SHA-1 hex digest
    that [make_id] computes from its [url]; any two such records, of the same
    run or of different runs, that agree on [url] agree on [id]. *)
Theorem scraper_id_is_hash
        (parse parse' : list str -> result Namespace) (w w' : world)
        (argv argv' : list str) (p q : Product) :
  scraper_sends parse w argv p ->
  scraper_sends parse' w' argv' q ->
  make_id (url p) = Ok (id p) /\ (url p = url q -> id p = id q).
Proof.
  intros Hp Hq.
  destruct (scraper_sends_built _ _ _ _ Hp) as (a & ps & _ & Hb & _ & Hin).
  destruct (scraper_sends_built _ _ _ _ Hq) as (a' & qs & _ & Hb' & _ & Hin').
  pose proof (proj1 (Forall_forall _ _) (build_products_id a ps Hb) p Hin) as Ip.
  pose proof (proj1 (Forall_forall _ _) (build_products_id a' qs Hb') q Hin') as Iq.
  cbv beta in Ip, Iq. split; [exact Ip|].
  intro Hu. rewrite Hu in Ip. congruence.
Qed.

Lemma online_sends_api_product :
  scraper_sends parse_args_plain Runs.scraper_online Runs.argv_api_insert Runs.api_product.
Proof.
  exists (upsert_request Runs.scraper_online [Runs.api_product]), [Runs.api_product].
  split; [in_concrete_list|]. split; [reflexivity | now left].
Qed.

Lemma scraper_id_is_hash_witness :
  scraper_sends parse_args_plain Runs.scraper_online Runs.argv_api_insert Runs.api_product /\
  make_id (url Runs.api_product) = Ok (id Runs.api_product) /\
  (url Runs.api_product = url Runs.api_product ->
   id Runs.api_product = id Runs.api_product).
Proof.
  split; [exact online_sends_api_product|].
  exact (scraper_id_is_hash parse_args_plain parse_args_plain Runs.scraper_online
           Runs.scraper_online Runs.argv_api_insert Runs.argv_api_insert
           Runs.api_product Runs.api_product
           online_sends_api_product online_sends_api_product).
Defined.

(** C1 as stated fails on the second script: the record it sends keeps the
    [id] the API gave it, here "1", which is not the hash of its [url]. *)
Lemma sync_sends_foreign_id :
  let w := Runs.sync_world (Runs.feed [JDict Runs.raw_foreign_id]) Runs.store_echo in
  let sent := SyncProducts.tagged w Runs.raw_foreign_id in
  In (SyncProducts.StoreUpsert (lit "products") (JList [sent]) [lit "id"])
     (trace (SyncProducts.script w)) /\
  field (lit "id") sent = Some (JStr (lit "1")) /\
  field (lit "url") sent = Some (JStr (lit "https://www.mymall.com.tw/pro-456")) /\
  make_id (lit "https://www.mymall.com.tw/pro-456") <> Ok (lit "1").
Proof.
  cbv zeta. split; [in_concrete_list|].
  split; [reflexivity|]. split; [reflexivity|].
  rewrite make_id_api_url. discriminate.
Qed.

(** C3.  When the endpoint URL or the credential is unset (or empty), the
    upsert client, for every product list, issues no request, prints the
    informational notice and returns normally; and a run of [main] still
    prints the success line with the count and the titles of the records it
    built, and returns 0. *)
Theorem upsert_skipped_without_config
        (parse : list str -> result Namespace) (w : world)
        (products : list Product) (argv : list str) (args : Namespace) :
  env_truthy (SUPABASE_URL w) && env_truthy (SUPABASE_SERVICE_ROLE_KEY w) = false ->
  parse argv = Ok args ->
  supabase_upsert_products w products = ([Print InfoConfigMissing], Ok tt) /\
  exists ps,
    build_products args = Ok ps /\
    main parse w argv
    = (map Print
         ((if insert args && nonempty ps then [InfoConfigMissing] else [])
          ++ RunSucceeded (length ps)
          :: map (fun p => ItemTitle (title p)) ps),
       Ok 0).
Proof.
  intros Hc Hp.
  assert (Hskip : forall l, supabase_upsert_products w l
                            = ([Print InfoConfigMissing], Ok tt)).
  { intro l. unfold supabase_upsert_products.
    destruct (env_truthy (SUPABASE_URL w)); [|reflexivity].
    destruct (env_truthy (SUPABASE_SERVICE_ROLE_KEY w)); [discriminate|reflexivity]. }
  split; [apply Hskip|].
  destruct (build_products_total args) as [ps Hps]. exists ps.
  split; [assumption|].
  unfold main. rewrite Hp, bind_lift_ok, Hps, bind_lift_ok.
  destruct (insert args && nonempty ps).
  - rewrite (main_tail ps _ _ (Hskip ps)). reflexivity.
  - rewrite (main_tail ps (ret tt) [] eq_refl). reflexivity.
Qed.

Lemma upsert_skipped_without_config_witness :
  env_truthy (SUPABASE_URL Runs.scraper_offline)
  && env_truthy (SUPABASE_SERVICE_ROLE_KEY Runs.scraper_offline) = false /\
  parse_args_plain Runs.argv_api_insert = Ok Runs.args_api_insert /\
  supabase_upsert_products Runs.scraper_offline [Runs.api_product]
  = ([Print InfoConfigMissing], Ok tt) /\
  exists ps,
    build_products Runs.args_api_insert = Ok ps /\
    main parse_args_plain Runs.scraper_offline Runs.argv_api_insert
    = (map Print
         ((if insert Runs.args_api_insert && nonempty ps
           then [InfoConfigMissing] else [])
          ++ RunSucceeded (length ps)
          :: map (fun p => ItemTitle (title p)) ps),
       Ok 0).
Proof.
  split; [reflexivity|]. split; [reflexivity|].
  exact (upsert_skipped_without_config parse_args_plain Runs.scraper_offline
           [Runs.api_product] Runs.argv_api_insert Runs.args_api_insert
           eq_refl eq_refl).
Defined.

End ScraperClaims.

Section ScraperPayload.
Import MymallScraper.

Variable parse : list str -> result Namespace.
Variable w : world.

Lemma asdict_fields (p : Product) :
  json_keys (asdict p) = PRODUCT_FIELDS /\
  (price p = None -> field (lit "price") (asdict p) = Some JNull) /\
  (image p = None -> field (lit "image") (asdict p) = Some JNull) /\
  (stock p = None -> field (lit "stock") (asdict p) = Some JNull).
Proof.
  destruct p as [i t u pr c im st so]. cbn [price image stock].
  split; [reflexivity|].
  repeat split; intros ->; reflexivity.
Qed.

(** The upsert client never raises, whatever the network does. *)
Lemma upsert_returns (ps : list Product) :
  outcome (supabase_upsert_products w ps) = Ok tt.
Proof. destruct (upsert_shape w ps) as (pre & lines & -> & _). reflexivity. Qed.

(** The one POST of the first script carries a 30 second timeout. *)
Lemma scraper_post_timeout (argv : list str) (req : request) :
  In (HttpPost req) (trace (main parse w argv)) -> req_timeout req = Some 30.
Proof.
  intro H. destruct (main_post parse w argv req H) as (a & ps & _ & _ & _ & _ & ->).
  reflexivity.
Qed.

(** A run whose arguments parse ends with status 0. *)
Lemma scraper_exit_status (argv : list str) (args : Namespace) :
  parse argv = Ok args -> exit_status (script parse w argv) = 0.
Proof.
  intro Hp. destruct (main_shape parse w argv args Hp) as (ps & pre & l & _ & Hm & _).
  unfold script. rewrite Hm. reflexivity.
Qed.

(** C6 (amended: the first script).  In every POST of [mymall_scraper.py]
    the body is the list of the [asdict] images of the records: each object
    has exactly the eight keys id, title, url, price, currency, image, stock,
    source, and an optional field that is absent is present with the value
    null. *)
Theorem scraper_payload_fields (argv : list str) (req : request) :
  In (HttpPost req) (trace (main parse w argv)) ->
  exists ps,
    req_data req = JList (map asdict ps) /\
    forall p, In p ps ->
      json_keys (asdict p) = PRODUCT_FIELDS /\
      (price p = None -> field (lit "price") (asdict p) = Some JNull) /\
      (image p = None -> field (lit "image") (asdict p) = Some JNull) /\
      (stock p = None -> field (lit "stock") (asdict p) = Some JNull).
Proof.
  intro H. destruct (main_post parse w argv req H) as (a & ps & _ & _ & _ & _ & ->).
  exists ps. split; [reflexivity|]. intros p _. apply asdict_fields.
Qed.

(** C8 (amended).  In the first script the records are the same values at
    construction, in the body sent to the store and in the report printed
    afterwards.  In the second script every fetched record is updated in
    place once before the write: the list object after [upsert_products]
    holds each dict with [member_id] set to MEMBER_ID, and every other key
    reads as it did. *)
Theorem records_only_tagged (argv : list str) (args : Namespace)
        (ps : list Product) :
  parse argv = Ok args ->
  build_products args = Ok ps ->
  ((forall req, In (HttpPost req) (trace (main parse w argv)) ->
                req_data req = JList (map asdict ps)) /\
   exists pre lines,
     trace (main parse w argv)
     = pre ++ map Print (lines ++ RunSucceeded (length ps)
                               :: map (fun p => ItemTitle (title p)) ps)) /\
  (forall (sw : SyncProducts.world) (d : list (str * json))
          (ds : list (list (str * json))) (k : str),
      fst (SyncProducts.upsert_products sw (JList (map JDict (d :: ds))))
      = JList (map (SyncProducts.tagged sw) (d :: ds)) /\
      field k (SyncProducts.tagged sw d)
      = if str_eqb k (lit "member_id")
        then Some (JStr (SyncProducts.env_value (SyncProducts.MEMBER_ID sw)))
        else dict_get k d).
Proof.
  intros Hp Hb. split; [split|].
  - intros req H.
    destruct (main_post parse w argv req H) as (a & ps' & Ha & Hb' & _ & _ & ->).
    assert (a = args) as -> by congruence.
    assert (ps' = ps) as -> by congruence. reflexivity.
  - destruct (main_shape parse w argv args Hp) as (ps' & pre & l & Hb' & Hm & _).
    assert (ps' = ps) as -> by congruence.
    exists pre, l. rewrite Hm. reflexivity.
  - intros sw d ds k. split.
    + rewrite (upsert_dicts sw (d :: ds)) by discriminate. reflexivity.
    + unfold SyncProducts.tagged, field.
      destruct (str_eqb k (lit "member_id")) eqn:E.
      * apply str_eqb_eq in E. subst k. apply dict_get_set_same.
      * apply dict_get_set_other. intros ->. rewrite str_eqb_refl in E. discriminate.
Qed.

End ScraperPayload.

Lemma online_post_in_trace :
  In (MymallScraper.HttpPost
        (MymallScraper.upsert_request Runs.scraper_online [Runs.api_product]))
     (trace (MymallScraper.main MymallScraper.parse_args_plain Runs.scraper_online
                                Runs.argv_api_insert)).
Proof. in_concrete_list. Qed.

Lemma scraper_payload_fields_witness :
  In (MymallScraper.HttpPost
        (MymallScraper.upsert_request Runs.scraper_online [Runs.api_product]))
     (trace (MymallScraper.main MymallScraper.parse_args_plain Runs.scraper_online
                                Runs.argv_api_insert)) /\
  exists ps,
    MymallScraper.req_data
      (MymallScraper.upsert_request Runs.scraper_online [Runs.api_product])
    = JList (map MymallScraper.asdict ps) /\
    forall p, In p ps ->
      json_keys (MymallScraper.asdict p) = PRODUCT_FIELDS /\
      (MymallScraper.price p = None ->
       field (lit "price") (MymallScraper.asdict p) = Some JNull) /\
      (MymallScraper.image p = None ->
       field (lit "image") (MymallScraper.asdict p) = Some JNull) /\
      (MymallScraper.stock p = None ->
       field (lit "stock") (MymallScraper.asdict p) = Some JNull).
Proof.
  split; [exact online_post_in_trace|].
  exact (scraper_payload_fields MymallScraper.parse_args_plain Runs.scraper_online
           Runs.argv_api_insert _ online_post_in_trace).
Defined.

(** C6 as stated fails on the second script: a fetched record that has the
    eight fields is sent with a ninth key, [member_id]. *)
Lemma sync_payload_has_member_id :
  let w := Runs.sync_world (Runs.feed [JDict Runs.raw_full]) Runs.store_echo in
  let sent := SyncProducts.tagged w Runs.raw_full in
  json_keys (JDict Runs.raw_full) = PRODUCT_FIELDS /\
  In (SyncProducts.StoreUpsert (lit "products") (JList [sent]) [lit "id"])
     (trace (SyncProducts.script w)) /\
  json_keys sent = PRODUCT_FIELDS ++ [lit "member_id"] /\
  json_keys sent <> PRODUCT_FIELDS.
Proof.
  cbv zeta. split; [reflexivity|]. split; [in_concrete_list|].
  split; [reflexivity|]. vm_compute. discriminate.
Qed.

Lemma records_only_tagged_witness :
  MymallScraper.parse_args_plain Runs.argv_api_insert = Ok Runs.args_api_insert /\
  MymallScraper.build_products Runs.args_api_insert = Ok [Runs.api_product] /\
  ((forall req,
       In (MymallScraper.HttpPost req)
          (trace (MymallScraper.main MymallScraper.parse_args_plain Runs.scraper_online
                                     Runs.argv_api_insert)) ->
       MymallScraper.req_data req
       = JList (map MymallScraper.asdict [Runs.api_product])) /\
   exists pre lines,
     trace (MymallScraper.main MymallScraper.parse_args_plain Runs.scraper_online
                               Runs.argv_api_insert)
     = pre ++ map MymallScraper.Print
                (lines ++ MymallScraper.RunSucceeded (length [Runs.api_product])
                       :: map (fun p => MymallScraper.ItemTitle (MymallScraper.title p))
                              [Runs.api_product])) /\
  (forall (sw : SyncProducts.world) (d : list (str * json))
          (ds : list (list (str * json))) (k : str),
      fst (SyncProducts.upsert_products sw (JList (map JDict (d :: ds))))
      = JList (map (SyncProducts.tagged sw) (d :: ds)) /\
      field k (SyncProducts.tagged sw d)
      = if str_eqb k (lit "member_id")
        then Some (JStr (SyncProducts.env_value (SyncProducts.MEMBER_ID sw)))
        else dict_get k d).
Proof.
  split; [reflexivity|]. split; [vm_compute; reflexivity|].
  exact (records_only_tagged MymallScraper.parse_args_plain
           Runs.scraper_online Runs.argv_api_insert
           Runs.args_api_insert [Runs.api_product]
           eq_refl ltac:(vm_compute; reflexivity)).
Defined.

(** C8 as stated fails on the second script: the record parsed from the API
    response has no [member_id]; the same record, at the moment it is sent
    and in the list the caller still holds, has one. *)
Lemma sync_record_mutated :
  let w := Runs.sync_world (Runs.feed [JDict Runs.raw_foreign_id]) Runs.store_echo in
  let sent := SyncProducts.tagged w Runs.raw_foreign_id in
  outcome (SyncProducts.fetch_products w) = Ok (JList [JDict Runs.raw_foreign_id]) /\
  In (SyncProducts.StoreUpsert (lit "products") (JList [sent]) [lit "id"])
     (trace (SyncProducts.script w)) /\
  fst (SyncProducts.upsert_products w (JList [JDict Runs.raw_foreign_id]))
  = JList [sent] /\
  field (lit "member_id") (JDict Runs.raw_foreign_id) = None /\
  field (lit "member_id") sent = Some (JStr Runs.member) /\
  sent <> JDict Runs.raw_foreign_id.
Proof.
  cbv zeta. split; [reflexivity|]. split; [in_concrete_list|].
  split; [reflexivity|]. split; [reflexivity|]. split; [reflexivity|].
  vm_compute. discriminate.
Qed.

(** C10 (amended).  For every argument vector the parser accepts: if the
    parsed namespace has [insert] false, or no record was built, the run is,
    in every world, the success line and one line per record, nothing else,
    and the value 0.  Neither a line of the upsert client nor a request
    appears: the client is not called.  For every argument vector the parser
    refuses (a usage error, or a request for help), [main] ends with the
    parser's [SystemExit] before anything is built: no request and no line,
    and no value returned. *)
Theorem scraper_no_insert_no_request
        (parse : list str -> result MymallScraper.Namespace) :
  (forall (argv : list str) (args : MymallScraper.Namespace),
      parse argv = Ok args ->
      MymallScraper.insert args = false \/
      MymallScraper.build_products args = Ok [] ->
      exists ps,
        MymallScraper.build_products args = Ok ps /\
        forall w : MymallScraper.world,
          MymallScraper.main parse w argv
          = (map MymallScraper.Print
               (MymallScraper.RunSucceeded (length ps)
                :: map (fun p => MymallScraper.ItemTitle (MymallScraper.title p)) ps),
             Ok 0) /\
          forall req,
            ~ In (MymallScraper.HttpPost req)
                 (trace (MymallScraper.main parse w argv))) /\
  (forall (argv : list str) (e : exn) (w : MymallScraper.world),
      parse argv = Raise e ->
      MymallScraper.main parse w argv = ([], Raise e) /\
      exit_status (MymallScraper.script parse w argv)
      = match e with SystemExit c => c | _ => 1 end).
Proof.
  split.
  - intros argv args Hp Hc.
    destruct (build_products_total args) as [ps Hps]. exists ps.
    split; [assumption|]. intro w.
    assert (Hoff : MymallScraper.insert args && MymallScraper.nonempty ps = false).
    { destruct Hc as [->|Hc]; [reflexivity|].
      rewrite Hc in Hps. injection Hps as <-. apply andb_false_r. }
    assert (Hm : MymallScraper.main parse w argv
                 = (map MymallScraper.Print
                      (MymallScraper.RunSucceeded (length ps)
                       :: map (fun p => MymallScraper.ItemTitle (MymallScraper.title p)) ps),
                    Ok 0)).
    { unfold MymallScraper.main. rewrite Hp, bind_lift_ok, Hps, bind_lift_ok, Hoff.
      rewrite (main_tail ps (ret tt) [] eq_refl). reflexivity. }
    split; [exact Hm|].
    intros req. rewrite Hm. apply in_map_print_post.
  - intros argv e w Hp.
    assert (Hm : MymallScraper.main parse w argv = ([], Raise e))
      by (apply main_parse_error; exact Hp).
    split; [exact Hm|].
    unfold MymallScraper.script. rewrite Hm. reflexivity.
Qed.

Lemma scraper_no_insert_no_request_witness :
  (MymallScraper.parse_args_plain Runs.argv_api = Ok Runs.args_api /\
   (MymallScraper.insert Runs.args_api = false \/
    MymallScraper.build_products Runs.args_api = Ok []) /\
   exists ps,
     MymallScraper.build_products Runs.args_api = Ok ps /\
     forall w : MymallScraper.world,
       MymallScraper.main MymallScraper.parse_args_plain w Runs.argv_api
       = (map MymallScraper.Print
            (MymallScraper.RunSucceeded (length ps)
             :: map (fun p => MymallScraper.ItemTitle (MymallScraper.title p)) ps),
          Ok 0) /\
       forall req,
         ~ In (MymallScraper.HttpPost req)
              (trace (MymallScraper.main MymallScraper.parse_args_plain w
                                         Runs.argv_api))) /\
  (MymallScraper.parse_args_plain [lit "--mode"; lit "json"]
   = Raise (SystemExit 2) /\
   MymallScraper.main MymallScraper.parse_args_plain Runs.scraper_online
                      [lit "--mode"; lit "json"]
   = ([], Raise (SystemExit 2)) /\
   exit_status (MymallScraper.script MymallScraper.parse_args_plain
                  Runs.scraper_online [lit "--mode"; lit "json"]) = 2).
Proof.
  split.
  - split; [reflexivity|]. split; [left; reflexivity|].
    exact (proj1 (scraper_no_insert_no_request MymallScraper.parse_args_plain)
             Runs.argv_api Runs.args_api eq_refl (or_introl eq_refl)).
  - split; [reflexivity|].
    exact (proj2 (scraper_no_insert_no_request MymallScraper.parse_args_plain)
             [lit "--mode"; lit "json"] (SystemExit 2) Runs.scraper_online
             eq_refl).
Defined.

(** C10 as stated fails on an argument vector the parser refuses: without
    [--insert] anywhere in it, the run returns no value; it ends with
    [SystemExit] and status 2. *)
Lemma scraper_rejected_vector_exits :
  ~ In (lit "--insert") [lit "--bogus"] /\
  MymallScraper.main MymallScraper.parse_args_plain Runs.scraper_offline
                     [lit "--bogus"]
  = ([], Raise (SystemExit 2)) /\
  outcome (MymallScraper.main MymallScraper.parse_args_plain Runs.scraper_offline
                              [lit "--bogus"]) <> Ok 0 /\
  exit_status (MymallScraper.script MymallScraper.parse_args_plain
                 Runs.scraper_offline [lit "--bogus"]) = 2.
Proof.
  split; [intros [H|[]]; vm_compute in H; discriminate|].
  split; [reflexivity|]. split; [vm_compute; discriminate | reflexivity].
Qed.

(** The two mock runs with the write disabled. *)
Example run_scrape_plain :
  MymallScraper.main MymallScraper.parse_args_plain Runs.scraper_online []
  = ([MymallScraper.Print (MymallScraper.RunSucceeded 1);
      MymallScraper.Print (MymallScraper.ItemTitle [0x6E2C; 0x8A66; 0x5546; 0x54C1])],
     Ok 0).
Proof. vm_compute. reflexivity. Qed.

Example run_api_plain :
  MymallScraper.main MymallScraper.parse_args_plain Runs.scraper_online Runs.argv_api
  = ([MymallScraper.Print (MymallScraper.RunSucceeded 1);
      MymallScraper.Print
        (MymallScraper.ItemTitle (lit "API " ++ [0x6E2C; 0x8A66; 0x5546; 0x54C1]))],
     Ok 0).
Proof. vm_compute. reflexivity. Qed.

Section SyncClaims.
Import SyncProducts.

(** C5 as stated fails: a raw record without [url] yields an output record
    (it is sent to the store) and no warning is logged. *)
Lemma sync_record_without_url_sent :
  let w := Runs.sync_world (Runs.feed [JDict Runs.raw_without_url]) Runs.store_echo in
  field (lit "url") (JDict Runs.raw_without_url) = None /\
  In (StoreUpsert (lit "products") (JList [tagged w Runs.raw_without_url]) [lit "id"])
     (trace (script w)) /\
  (forall m, ~ In (Log WARNING m) (trace (script w))) /\
  outcome (script w) = Ok tt.
Proof.
  cbv zeta. split; [reflexivity|]. split; [in_concrete_list|].
  split; [|reflexivity].
  intros m H. vm_compute in H.
  repeat (destruct H as [H|H]; [discriminate|]). destruct H.
Qed.

(** C4 at the failing input: all four variables set, one record fetched, the
    store client raising.  Nothing catches the exception: the trace ends at
    the write, with no failure logged, and the exception leaves the script. *)
Theorem sync_store_failure_escapes :
  let w := Runs.sync_world (Runs.feed [JDict Runs.raw_full]) Runs.store_down in
  script w
  = ([ Log INFO (Fetching Runs.api);
       HttpGet Runs.api None;
       Log INFO (Upserting 1);
       StoreUpsert (lit "products") (JList [tagged w Runs.raw_full]) [lit "id"] ],
     Raise StoreClientError).
Proof. vm_compute. reflexivity. Qed.

(** C7 at the same input: every required variable is present, and the
    process ends with status 1. *)
Theorem sync_store_failure_exit_status :
  let w := Runs.sync_world (Runs.feed [JDict Runs.raw_full]) Runs.store_down in
  configured w = true /\ exit_status (script w) = 1.
Proof. split; vm_compute; reflexivity. Qed.

(** Two more ways out with every variable present: a body that is a JSON
    list has no [get], and an item that is not a dict takes no item
    assignment; neither exception is a [RequestException]. *)
Example sync_list_body_exit_status :
  let w := Runs.sync_world (JList []) Runs.store_echo in
  script w = ([Log INFO (Fetching Runs.api); HttpGet Runs.api None],
              Raise AttributeError)
  /\ exit_status (script w) = 1.
Proof. split; vm_compute; reflexivity. Qed.

Example sync_string_item_exit_status :
  let w := Runs.sync_world (Runs.feed [JStr (lit "x")]) Runs.store_echo in
  script w = ([Log INFO (Fetching Runs.api); HttpGet Runs.api None],
              Raise TypeError)
  /\ exit_status (script w) = 1.
Proof. split; vm_compute; reflexivity. Qed.

(** The runs the script is written for: an empty feed, a missing variable,
    a store that answers. *)
Example sync_empty_feed :
  script (Runs.sync_world (Runs.feed []) Runs.store_echo)
  = ([Log INFO (Fetching Runs.api); HttpGet Runs.api None; Log WARNING NothingFetched],
     Ok tt).
Proof. vm_compute. reflexivity. Qed.

Example sync_missing_member_id :
  let w := mkWorld (Some Runs.store) (Some Runs.key) None (Some Runs.api)
             (fun _ _ => true) (fun _ => GetRaises) Runs.store_echo in
  script w = ([Log ERROR MissingEnvironment], Raise (SystemExit 1))
  /\ exit_status (script w) = 1.
Proof. split; vm_compute; reflexivity. Qed.

Example sync_store_answers :
  let w := Runs.sync_world (Runs.feed [JDict Runs.raw_full]) Runs.store_echo in
  script w
  = ([ Log INFO (Fetching Runs.api);
       HttpGet Runs.api None;
       Log INFO (Upserting 1);
       StoreUpsert (lit "products") (JList [tagged w Runs.raw_full]) [lit "id"];
       Log INFO (Upserted 1) ],
     Ok tt).
Proof. vm_compute. reflexivity. Qed.

(** C9 at the fetch: in every world the GET of [fetch_products] goes out
    with no timeout. *)
Theorem sync_fetch_without_timeout (w : world) :
  exists rest,
    trace (fetch_products w)
    = Log INFO (Fetching (env_value (API_URL w)))
        :: HttpGet (env_value (API_URL w)) None :: rest.
Proof. destruct (fetch_shape w) as [errors H]. rewrite H. eauto. Qed.

(** The first script's client, by contrast, swallows a failed write: the run
    still prints its success line and ends with status 0. *)
Example scraper_store_failure_swallowed :
  let w := MymallScraper.mkWorld (Some Runs.store) (Some Runs.key) true
             (fun _ => MymallScraper.PostResponse 500 (lit "oops")) in
  trace (MymallScraper.main MymallScraper.parse_args_plain w Runs.argv_api_insert)
  = [ MymallScraper.HttpPost (MymallScraper.upsert_request w [Runs.api_product]);
      MymallScraper.Print (MymallScraper.UpsertFailed HTTPError);
      MymallScraper.Print (MymallScraper.UpsertResponse 500 (lit "oops"));
      MymallScraper.Print (MymallScraper.RunSucceeded 1);
      MymallScraper.Print (MymallScraper.ItemTitle (MymallScraper.title Runs.api_product)) ]
  /\ exit_status (MymallScraper.script MymallScraper.parse_args_plain w Runs.argv_api_insert) = 0.
Proof. split; vm_compute; reflexivity. Qed.

End SyncClaims.

(** * Further properties of the code *)

(** ** [make_id] *)

Lemma encode_only_unicode_error (u : str) (e : exn) :
  UTF8.encode u = Raise e -> e = UnicodeEncodeError.
Proof.
  induction u as [|c u IH]; simpl; [discriminate|].
  destruct (UTF8.scalar c); [|congruence].
  destruct (UTF8.encode u); [discriminate|].
  intro H. injection H as <-. now apply IH.
Qed.

Lemma well_formed_dec (u : str) :
  UTF8.well_formed u \/ exists c, In c u /\ UTF8.scalar c = false.
Proof.
  induction u as [|c u [IH|(c' & Hin & Hc')]].
  - left. constructor.
  - destruct (UTF8.scalar c) eqn:Hc.
    + left. now constructor.
    + right. exists c. split; [now left | assumption].
  - right. exists c'. split; [now right | assumption].
Qed.

(** X1.  [make_id] raises exactly when its argument holds a code point the
    UTF-8 codec refuses (a surrogate), and then the exception is
    [UnicodeEncodeError]; it raises nothing else. *)
Theorem make_id_raises_iff (u : str) :
  (make_id u = Raise UnicodeEncodeError
   <-> exists c, In c u /\ UTF8.scalar c = false) /\
  (forall e, make_id u = Raise e -> e = UnicodeEncodeError).
Proof.
  split; [split|].
  - intro H. destruct (well_formed_dec u) as [Hw|Hx]; [|exact Hx].
    destruct (encode_total u Hw) as [bs Hbs].
    unfold make_id in H. rewrite Hbs in H. discriminate.
  - intros (c & Hin & Hc). unfold make_id.
    rewrite encode_raises; [reflexivity|].
    intro Hw. pose proof (proj1 (Forall_forall _ _) Hw c Hin) as Hs.
    cbv beta in Hs. congruence.
  - intros e H. unfold make_id in H.
    destruct (UTF8.encode u) as [bs|e'] eqn:E; [discriminate|].
    injection H as <-. exact (encode_only_unicode_error u e' E).
Qed.

Lemma encode_ascii (u : str) : ascii_only u -> UTF8.encode u = Ok u.
Proof.
  induction 1 as [|c u Hc _ IH]; [reflexivity|].
  simpl. rewrite IH.
  assert (Hs : UTF8.scalar c = true) by (unfold UTF8.scalar; lia).
  rewrite Hs. unfold UTF8.encode_cp.
  assert (Hl : (c <? 0x80) = true) by lia.
  now rewrite Hl.
Qed.

(** X2.  On an ASCII-only URL the octets hashed are the character codes
    themselves: the id is the SHA-1 hex digest of the URL's characters. *)
Theorem make_id_ascii (u : str) :
  ascii_only u -> make_id u = Ok (SHA1.hexdigest u).
Proof. intro H. unfold make_id. now rewrite (encode_ascii u H). Qed.

Lemma ascii_only_api_url : ascii_only (lit "https://www.mymall.com.tw/pro-456").
Proof.
  apply Forall_forall. intros c H. vm_compute in H.
  repeat (destruct H as [<-|H]; [lia|]). destruct H.
Qed.

Lemma make_id_ascii_witness :
  ascii_only (lit "https://www.mymall.com.tw/pro-456") /\
  make_id (lit "https://www.mymall.com.tw/pro-456")
  = Ok (SHA1.hexdigest (lit "https://www.mymall.com.tw/pro-456")).
Proof.
  split; [exact ascii_only_api_url|].
  exact (make_id_ascii _ ascii_only_api_url).
Defined.

Lemma lor_lead (a bound v : Z) :
  In (a, bound) [(0x80, 64); (0xC0, 32); (0xE0, 16); (0xF0, 8)] ->
  0 <= v < bound -> Z.lor a v = a + v.
Proof.
  intros Hin Hv.
  assert (Hn : (Z.to_nat v < Z.to_nat bound)%nat) by lia.
  rewrite <- (Z2Nat.id v) by lia.
  remember (Z.to_nat v) as n eqn:En. clear En Hv.
  simpl in Hin.
  destruct Hin as [H|[H|[H|[H|[]]]]]; injection H as <- <-;
    [ do 64 (destruct n as [|n]; [reflexivity|])
    | do 32 (destruct n as [|n]; [reflexivity|])
    | do 16 (destruct n as [|n]; [reflexivity|])
    | do 8 (destruct n as [|n]; [reflexivity|]) ];
    exfalso; simpl in Hn; lia.
Qed.

Lemma cont_arith (c sh : Z) :
  0 <= sh -> UTF8.cont c sh = 0x80 + (c / 2 ^ sh) mod 64.
Proof.
  intro Hsh. unfold UTF8.cont.
  change 0x3F with (Z.ones 6). rewrite Z.land_ones by lia.
  rewrite Z.shiftr_div_pow2 by assumption.
  apply (lor_lead 0x80 64); [now left|].
  apply Z.mod_pos_bound. reflexivity.
Qed.

(** The encoding of one code point, in arithmetic. *)
Lemma encode_cp_arith (c : Z) :
  UTF8.scalar c = true ->
  UTF8.encode_cp c
  = if c <? 0x80 then [c]
    else if c <? 0x800 then [0xC0 + c / 64; 0x80 + c mod 64]
    else if c <? 0x10000 then
      [0xE0 + c / 4096; 0x80 + (c / 64) mod 64; 0x80 + c mod 64]
    else [0xF0 + c / 262144; 0x80 + (c / 4096) mod 64;
          0x80 + (c / 64) mod 64; 0x80 + c mod 64].
Proof.
  intro Hc. unfold UTF8.scalar in Hc.
  assert (R : 0 <= c <= 0x10FFFF) by lia.
  unfold UTF8.encode_cp.
  rewrite !cont_arith by lia. rewrite !Z.shiftr_div_pow2 by lia.
  change (2 ^ 0) with 1. change (2 ^ 6) with 64. change (2 ^ 12) with 4096.
  change (2 ^ 18) with 262144. rewrite Z.div_1_r.
  destruct (c <? 0x80) eqn:E1; [reflexivity|].
  destruct (c <? 0x800) eqn:E2.
  { rewrite (lor_lead 0xC0 32); [reflexivity | simpl; tauto |].
    split; [apply Z.div_pos; lia | apply Z.div_lt_upper_bound; lia]. }
  destruct (c <? 0x10000) eqn:E3.
  { rewrite (lor_lead 0xE0 16); [reflexivity | simpl; tauto |].
    split; [apply Z.div_pos; lia | apply Z.div_lt_upper_bound; lia]. }
  rewrite (lor_lead 0xF0 8); [reflexivity | simpl; tauto |].
  split; [apply Z.div_pos; lia | apply Z.div_lt_upper_bound; lia].
Qed.

Lemma cons_eq_inv {A} (x y : A) (l l' : list A) :
  x :: l = y :: l' -> x = y /\ l = l'.
Proof. intro H. now injection H. Qed.

Ltac split_cons :=
  repeat match goal with
         | H : _ :: _ = _ :: _ |- _ =>
             apply cons_eq_inv in H; destruct H
         end.

(** The first code point and the rest can be read back from the octets. *)
Lemma encode_cp_prefix_free (c c' : Z) (r r' : bytes) :
  UTF8.scalar c = true -> UTF8.scalar c' = true ->
  UTF8.encode_cp c ++ r = UTF8.encode_cp c' ++ r' ->
  c = c' /\ r = r'.
Proof.
  intros Hc Hc'.
  rewrite (encode_cp_arith c Hc), (encode_cp_arith c' Hc').
  unfold UTF8.scalar in Hc, Hc'.
  assert (R : 0 <= c <= 0x10FFFF) by lia.
  assert (R' : 0 <= c' <= 0x10FFFF) by lia.
  clear Hc Hc'.
  destruct (c <? 0x80) eqn:E1; [|destruct (c <? 0x800) eqn:E2;
                                  [|destruct (c <? 0x10000) eqn:E3]];
  (destruct (c' <? 0x80) eqn:F1; [|destruct (c' <? 0x800) eqn:F2;
                                    [|destruct (c' <? 0x10000) eqn:F3]]);
  cbn [app]; intro H; split_cons;
  (split; [ Z.div_mod_to_equations; lia
          | first [ assumption | exfalso; Z.div_mod_to_equations; lia ] ]).
Qed.

Lemma encode_cp_nonempty (c : Z) : UTF8.encode_cp c <> [].
Proof.
  unfold UTF8.encode_cp.
  destruct (c <? 0x80); [discriminate|].
  destruct (c <? 0x800); [discriminate|].
  destruct (c <? 0x10000); discriminate.
Qed.

(** X3.  The UTF-8 step of [make_id] loses nothing: two URLs encoded to the
    same octets are the same URL, so two different URLs can share an id only
    through a collision of SHA-1 itself. *)
Theorem utf8_encode_injective (u v : str) (bs : bytes) :
  UTF8.encode u = Ok bs -> UTF8.encode v = Ok bs -> u = v.
Proof.
  revert v bs. induction u as [|c u IH]; intros [|c' v] bs Hu Hv;
    cbn [UTF8.encode] in Hu, Hv.
  - reflexivity.
  - exfalso. injection Hu as <-.
    destruct (UTF8.scalar c'); [|discriminate].
    destruct (UTF8.encode v) as [bv|]; [|discriminate].
    injection Hv as Hv. apply app_eq_nil in Hv.
    exact (encode_cp_nonempty c' (proj1 Hv)).
  - exfalso. injection Hv as <-.
    destruct (UTF8.scalar c); [|discriminate].
    destruct (UTF8.encode u) as [bu|]; [|discriminate].
    injection Hu as Hu. apply app_eq_nil in Hu.
    exact (encode_cp_nonempty c (proj1 Hu)).
  - destruct (UTF8.scalar c) eqn:Hc; [|discriminate].
    destruct (UTF8.scalar c') eqn:Hc'; [|discriminate].
    destruct (UTF8.encode u) as [bu|] eqn:Eu; [|discriminate].
    destruct (UTF8.encode v) as [bv|] eqn:Ev; [|discriminate].
    injection Hu as <-. injection Hv as Hv.
    destruct (encode_cp_prefix_free c' c bv bu Hc' Hc Hv) as [-> ->].
    f_equal. exact (IH v bu eq_refl Ev).
Qed.

Lemma utf8_encode_injective_witness :
  UTF8.encode [0x68; 0xE9; 0x6E2C; 0x1F600]
  = Ok [0x68; 0xC3; 0xA9; 0xE6; 0xB8; 0xAC; 0xF0; 0x9F; 0x98; 0x80] /\
  UTF8.encode (lit "h" ++ [0xE9; 0x6E2C; 0x1F600])
  = Ok [0x68; 0xC3; 0xA9; 0xE6; 0xB8; 0xAC; 0xF0; 0x9F; 0x98; 0x80] /\
  [0x68; 0xE9; 0x6E2C; 0x1F600] = lit "h" ++ [0xE9; 0x6E2C; 0x1F600].
Proof.
  split; [vm_compute; reflexivity|]. split; [vm_compute; reflexivity|].
  exact (utf8_encode_injective [0x68; 0xE9; 0x6E2C; 0x1F600]
           (lit "h" ++ [0xE9; 0x6E2C; 0x1F600])
           [0x68; 0xC3; 0xA9; 0xE6; 0xB8; 0xAC; 0xF0; 0x9F; 0x98; 0x80]
           ltac:(vm_compute; reflexivity) ltac:(vm_compute; reflexivity)).
Defined.

(** ** [supabase_upsert_products] *)

Section Client.
Import MymallScraper.

Variable w : world.
Variable ps : list Product.

(** The five ways a call of the client goes. *)
Lemma upsert_cases :
  supabase_upsert_products w ps
  = if negb (env_truthy (SUPABASE_URL w))
       || negb (env_truthy (SUPABASE_SERVICE_ROLE_KEY w))
    then ([Print InfoConfigMissing], Ok tt)
    else if negb (requests_imported w)
    then ([Print InfoRequestsMissing], Ok tt)
    else match post w (upsert_request w ps) with
         | PostRaises =>
             ([HttpPost (upsert_request w ps);
               Print (UpsertFailed RequestException)], Ok tt)
         | PostResponse c t =>
             if error_status c
             then ([HttpPost (upsert_request w ps);
                    Print (UpsertFailed HTTPError);
                    Print (UpsertResponse c (firstn 400 t))], Ok tt)
             else ([HttpPost (upsert_request w ps);
                    Print (UpsertSucceeded (length ps))], Ok tt)
         end.
Proof.
  unfold supabase_upsert_products.
  destruct (negb (env_truthy (SUPABASE_URL w))
            || negb (env_truthy (SUPABASE_SERVICE_ROLE_KEY w))); [reflexivity|].
  destruct (negb (requests_imported w)); [reflexivity|].
  unfold requests_post, local_r, raise_for_status, error_status.
  destruct (post w (upsert_request w ps)) as [|c t]; [reflexivity|].
  simpl. destruct ((400 <=? c) && (c <? 600)); simpl; [reflexivity|].
  now rewrite length_map.
Qed.

End Client.

(** X4.  Whatever the store and the network answer (a transport failure, an
    error status, any response), and whichever variables are set, the client
    catches it: it returns normally and sends at most one request.  (Console
    output is taken to succeed, see [print].) *)
Theorem client_never_raises (w : MymallScraper.world)
        (ps : list MymallScraper.Product) :
  outcome (MymallScraper.supabase_upsert_products w ps) = Ok tt /\
  (length (filter is_post (trace (MymallScraper.supabase_upsert_products w ps)))
   <= 1)%nat.
Proof.
  rewrite upsert_cases.
  destruct (negb _ || negb _); [split; [reflexivity | simpl; lia]|].
  destruct (negb _); [split; [reflexivity | simpl; lia]|].
  destruct (MymallScraper.post w _) as [|c t]; [split; [reflexivity | simpl; lia]|].
  destruct (error_status c); split; try reflexivity; simpl; lia.
Qed.

(** X5.  The client sends a request exactly when the endpoint URL and the
    credential are both set and not empty and [requests] could be imported;
    an empty variable counts as a missing one. *)
Theorem client_posts_iff (w : MymallScraper.world)
        (ps : list MymallScraper.Product) :
  (exists req,
      In (MymallScraper.HttpPost req)
         (trace (MymallScraper.supabase_upsert_products w ps)))
  <-> (exists u k cu ck,
          MymallScraper.SUPABASE_URL w = Some (cu :: u) /\
          MymallScraper.SUPABASE_SERVICE_ROLE_KEY w = Some (ck :: k)) /\
      MymallScraper.requests_imported w = true.
Proof.
  rewrite upsert_cases. split.
  - intros [req H].
    destruct (MymallScraper.SUPABASE_URL w) as [[|cu u]|] eqn:Eu; simpl in H;
      try (destruct H as [H|[]]; discriminate).
    destruct (MymallScraper.SUPABASE_SERVICE_ROLE_KEY w) as [[|ck k]|] eqn:Ek;
      simpl in H; try (destruct H as [H|[]]; discriminate).
    destruct (MymallScraper.requests_imported w); simpl in H;
      [|destruct H as [H|[]]; discriminate].
    split; [|reflexivity]. exists u, k, cu, ck. auto.
  - intros [(u & k & cu & ck & Eu & Ek) Hi]. rewrite Eu, Ek, Hi. simpl.
    exists (MymallScraper.upsert_request w ps).
    destruct (MymallScraper.post w _) as [|c t]; [now left|].
    destruct (error_status c); now left.
Qed.

(** X6.  The request the client sends goes to [{SUPABASE_URL}/rest/v1/products]
    with the query parameter [on_conflict=id], carries the credential both as
    [apikey] and as a bearer [Authorization], the JSON content type and the
    merge-duplicates preference (four headers in all), has the records in
    order as body and a 30 second timeout. *)
Theorem client_request (w : MymallScraper.world)
        (ps : list MymallScraper.Product) (req : MymallScraper.request) :
  In (MymallScraper.HttpPost req)
     (trace (MymallScraper.supabase_upsert_products w ps)) ->
  exists u k,
    MymallScraper.SUPABASE_URL w = Some u /\
    MymallScraper.SUPABASE_SERVICE_ROLE_KEY w = Some k /\
    MymallScraper.req_url req = u ++ lit "/rest/v1/products" /\
    MymallScraper.req_params req = [(lit "on_conflict", lit "id")] /\
    dict_keys (MymallScraper.req_headers req)
    = [lit "apikey"; lit "Authorization"; lit "Content-Type"; lit "Prefer"] /\
    dict_get (lit "apikey") (MymallScraper.req_headers req) = Some k /\
    dict_get (lit "Authorization") (MymallScraper.req_headers req)
    = Some (lit "Bearer " ++ k) /\
    dict_get (lit "Content-Type") (MymallScraper.req_headers req)
    = Some (lit "application/json") /\
    dict_get (lit "Prefer") (MymallScraper.req_headers req)
    = Some (lit "resolution=merge-duplicates,return=representation") /\
    MymallScraper.req_data req = JList (map MymallScraper.asdict ps) /\
    MymallScraper.req_timeout req = Some 30.
Proof.
  rewrite upsert_cases. intro H.
  destruct (MymallScraper.SUPABASE_URL w) as [[|cu u]|] eqn:Eu; simpl in H;
    try (destruct H as [H|[]]; discriminate).
  destruct (MymallScraper.SUPABASE_SERVICE_ROLE_KEY w) as [[|ck k]|] eqn:Ek;
    simpl in H; try (destruct H as [H|[]]; discriminate).
  destruct (MymallScraper.requests_imported w); simpl in H;
    [|destruct H as [H|[]]; discriminate].
  assert (Hreq : req = MymallScraper.upsert_request w ps).
  { destruct (MymallScraper.post w _) as [|c t].
    - destruct H as [H|[H|[]]]; [now injection H | discriminate].
    - destruct (error_status c).
      + destruct H as [H|[H|[H|[]]]]; [now injection H | discriminate | discriminate].
      + destruct H as [H|[H|[]]]; [now injection H | discriminate]. }
  subst req. exists (cu :: u), (ck :: k).
  unfold MymallScraper.upsert_request, MymallScraper.SUPABASE_HEADERS.
  rewrite Eu, Ek. cbn [MymallScraper.req_url MymallScraper.req_params
    MymallScraper.req_headers MymallScraper.req_data MymallScraper.req_timeout].
  repeat split; reflexivity.
Qed.

Lemma client_request_witness :
  In (MymallScraper.HttpPost
        (MymallScraper.upsert_request Runs.scraper_online [Runs.api_product]))
     (trace (MymallScraper.supabase_upsert_products Runs.scraper_online
                                                    [Runs.api_product])) /\
  exists u k,
    MymallScraper.SUPABASE_URL Runs.scraper_online = Some u /\
    MymallScraper.SUPABASE_SERVICE_ROLE_KEY Runs.scraper_online = Some k /\
    MymallScraper.req_url
      (MymallScraper.upsert_request Runs.scraper_online [Runs.api_product])
    = u ++ lit "/rest/v1/products" /\
    MymallScraper.req_params
      (MymallScraper.upsert_request Runs.scraper_online [Runs.api_product])
    = [(lit "on_conflict", lit "id")] /\
    dict_keys (MymallScraper.req_headers
      (MymallScraper.upsert_request Runs.scraper_online [Runs.api_product]))
    = [lit "apikey"; lit "Authorization"; lit "Content-Type"; lit "Prefer"] /\
    dict_get (lit "apikey") (MymallScraper.req_headers
      (MymallScraper.upsert_request Runs.scraper_online [Runs.api_product]))
    = Some k /\
    dict_get (lit "Authorization") (MymallScraper.req_headers
      (MymallScraper.upsert_request Runs.scraper_online [Runs.api_product]))
    = Some (lit "Bearer " ++ k) /\
    dict_get (lit "Content-Type") (MymallScraper.req_headers
      (MymallScraper.upsert_request Runs.scraper_online [Runs.api_product]))
    = Some (lit "application/json") /\
    dict_get (lit "Prefer") (MymallScraper.req_headers
      (MymallScraper.upsert_request Runs.scraper_online [Runs.api_product]))
    = Some (lit "resolution=merge-duplicates,return=representation") /\
    MymallScraper.req_data
      (MymallScraper.upsert_request Runs.scraper_online [Runs.api_product])
    = JList (map MymallScraper.asdict [Runs.api_product]) /\
    MymallScraper.req_timeout
      (MymallScraper.upsert_request Runs.scraper_online [Runs.api_product])
    = Some 30.
Proof.
  assert (H : In (MymallScraper.HttpPost
        (MymallScraper.upsert_request Runs.scraper_online [Runs.api_product]))
     (trace (MymallScraper.supabase_upsert_products Runs.scraper_online
                                                    [Runs.api_product])))
    by (vm_compute; left; reflexivity).
  split; [exact H|].
  exact (client_request Runs.scraper_online [Runs.api_product] _ H).
Defined.

(** X7.  The client prints its success line exactly when the request came
    back with a status outside 400..599 (a 1xx or 3xx answer counts as a
    success), and the count it prints is the number of records. *)
Theorem client_success_iff (w : MymallScraper.world)
        (ps : list MymallScraper.Product) (n : nat) :
  In (MymallScraper.Print (MymallScraper.UpsertSucceeded n))
     (trace (MymallScraper.supabase_upsert_products w ps))
  <-> n = length ps /\
      env_truthy (MymallScraper.SUPABASE_URL w) = true /\
      env_truthy (MymallScraper.SUPABASE_SERVICE_ROLE_KEY w) = true /\
      MymallScraper.requests_imported w = true /\
      exists c t,
        MymallScraper.post w (MymallScraper.upsert_request w ps)
        = MymallScraper.PostResponse c t /\ (c < 400 \/ 600 <= c).
Proof.
  rewrite upsert_cases. split.
  - intro H.
    destruct (env_truthy (MymallScraper.SUPABASE_URL w)); simpl in H;
      [|destruct H as [H|[]]; discriminate].
    destruct (env_truthy (MymallScraper.SUPABASE_SERVICE_ROLE_KEY w)); simpl in H;
      [|destruct H as [H|[]]; discriminate].
    destruct (MymallScraper.requests_imported w); simpl in H;
      [|destruct H as [H|[]]; discriminate].
    destruct (MymallScraper.post w _) as [|c t].
    + destruct H as [H|[H|[]]]; discriminate.
    + destruct (error_status c) eqn:Ec.
      * destruct H as [H|[H|[H|[]]]]; discriminate.
      * destruct H as [H|[H|[]]]; [discriminate|]. injection H as <-.
        repeat split; try reflexivity. exists c, t. split; [reflexivity|].
        unfold error_status in Ec. lia.
  - intros (-> & -> & -> & -> & c & t & -> & Hc). simpl.
    assert (Ec : error_status c = false) by (unfold error_status; lia).
    rewrite Ec. right. now left.
Qed.

(** X8.  When the store answers with a 4xx or 5xx status the client prints
    the failure and the status with the first 400 characters of the body,
    does not print a success line, and returns normally. *)
Theorem client_error_status (w : MymallScraper.world)
        (ps : list MymallScraper.Product) (c : Z) (t : str) :
  env_truthy (MymallScraper.SUPABASE_URL w) = true ->
  env_truthy (MymallScraper.SUPABASE_SERVICE_ROLE_KEY w) = true ->
  MymallScraper.requests_imported w = true ->
  MymallScraper.post w (MymallScraper.upsert_request w ps)
  = MymallScraper.PostResponse c t ->
  400 <= c < 600 ->
  exists shown,
    MymallScraper.supabase_upsert_products w ps
    = ([ MymallScraper.HttpPost (MymallScraper.upsert_request w ps);
         MymallScraper.Print (MymallScraper.UpsertFailed HTTPError);
         MymallScraper.Print (MymallScraper.UpsertResponse c shown) ], Ok tt) /\
    shown = firstn 400 t /\ length shown = Nat.min 400 (length t).
Proof.
  intros Hu Hk Hi Hp Hc. exists (firstn 400 t).
  rewrite upsert_cases, Hu, Hk, Hi, Hp. cbn [negb orb].
  assert (Ec : error_status c = true) by (unfold error_status; lia).
  rewrite Ec. split; [reflexivity|]. split; [reflexivity|].
  apply length_firstn.
Qed.

Lemma client_error_status_witness :
  env_truthy (MymallScraper.SUPABASE_URL MoreRuns.scraper_rejected) = true /\
  env_truthy (MymallScraper.SUPABASE_SERVICE_ROLE_KEY MoreRuns.scraper_rejected)
  = true /\
  MymallScraper.requests_imported MoreRuns.scraper_rejected = true /\
  MymallScraper.post MoreRuns.scraper_rejected
    (MymallScraper.upsert_request MoreRuns.scraper_rejected [Runs.api_product])
  = MymallScraper.PostResponse 503 MoreRuns.long_body /\
  400 <= 503 < 600 /\
  exists shown,
    MymallScraper.supabase_upsert_products MoreRuns.scraper_rejected
                                           [Runs.api_product]
    = ([ MymallScraper.HttpPost
           (MymallScraper.upsert_request MoreRuns.scraper_rejected
                                         [Runs.api_product]);
         MymallScraper.Print (MymallScraper.UpsertFailed HTTPError);
         MymallScraper.Print (MymallScraper.UpsertResponse 503 shown) ], Ok tt) /\
    shown = firstn 400 MoreRuns.long_body /\
    length shown = Nat.min 400 (length MoreRuns.long_body).
Proof.
  split; [reflexivity|]. split; [reflexivity|]. split; [reflexivity|].
  split; [reflexivity|]. split; [lia|].
  exact (client_error_status MoreRuns.scraper_rejected [Runs.api_product]
           503 MoreRuns.long_body eq_refl eq_refl eq_refl eq_refl
           ltac:(lia)).
Defined.

(** X9.  When the request itself raises (no response object exists), the
    client prints the failure line only: the attempt to print the response
    fails on the unbound [r] and is swallowed. *)
Theorem client_transport_error (w : MymallScraper.world)
        (ps : list MymallScraper.Product) :
  env_truthy (MymallScraper.SUPABASE_URL w) = true ->
  env_truthy (MymallScraper.SUPABASE_SERVICE_ROLE_KEY w) = true ->
  MymallScraper.requests_imported w = true ->
  MymallScraper.post w (MymallScraper.upsert_request w ps)
  = MymallScraper.PostRaises ->
  MymallScraper.supabase_upsert_products w ps
  = ([ MymallScraper.HttpPost (MymallScraper.upsert_request w ps);
       MymallScraper.Print (MymallScraper.UpsertFailed RequestException) ],
     Ok tt).
Proof.
  intros Hu Hk Hi Hp. rewrite upsert_cases, Hu, Hk, Hi, Hp. reflexivity.
Qed.

Lemma client_transport_error_witness :
  env_truthy (MymallScraper.SUPABASE_URL MoreRuns.scraper_unreachable) = true /\
  env_truthy (MymallScraper.SUPABASE_SERVICE_ROLE_KEY MoreRuns.scraper_unreachable)
  = true /\
  MymallScraper.requests_imported MoreRuns.scraper_unreachable = true /\
  MymallScraper.post MoreRuns.scraper_unreachable
    (MymallScraper.upsert_request MoreRuns.scraper_unreachable [Runs.api_product])
  = MymallScraper.PostRaises /\
  MymallScraper.supabase_upsert_products MoreRuns.scraper_unreachable
                                         [Runs.api_product]
  = ([ MymallScraper.HttpPost
         (MymallScraper.upsert_request MoreRuns.scraper_unreachable
                                       [Runs.api_product]);
       MymallScraper.Print (MymallScraper.UpsertFailed RequestException) ],
     Ok tt).
Proof.
  split; [reflexivity|]. split; [reflexivity|]. split; [reflexivity|].
  split; [reflexivity|].
  exact (client_transport_error MoreRuns.scraper_unreachable [Runs.api_product]
           eq_refl eq_refl eq_refl eq_refl).
Defined.

(** ** [main] of mymall_scraper.py *)

Section MainRuns.
Import MymallScraper.

Variable parse : list str -> result Namespace.
Variable w : world.

Lemma client_posts_env (ps : list Product) :
  (exists req, In (HttpPost req) (trace (supabase_upsert_products w ps)))
  <-> env_truthy (SUPABASE_URL w) = true /\
      env_truthy (SUPABASE_SERVICE_ROLE_KEY w) = true /\
      requests_imported w = true.
Proof.
  rewrite upsert_cases. split.
  - intros [req H].
    destruct (env_truthy (SUPABASE_URL w)); simpl in H;
      [|destruct H as [H|[]]; discriminate].
    destruct (env_truthy (SUPABASE_SERVICE_ROLE_KEY w)); simpl in H;
      [|destruct H as [H|[]]; discriminate].
    destruct (requests_imported w); simpl in H;
      [auto | destruct H as [H|[]]; discriminate].
  - intros (-> & -> & ->). cbn [negb orb].
    exists (upsert_request w ps).
    destruct (post w _) as [|c t]; [now left|].
    destruct (error_status c); now left.
Qed.

Lemma client_post_count (ps : list Product) :
  (length (filter is_post (trace (supabase_upsert_products w ps))) <= 1)%nat.
Proof.
  rewrite upsert_cases.
  destruct (negb _ || negb _); [simpl; lia|].
  destruct (negb _); [simpl; lia|].
  destruct (post w _) as [|c t]; [simpl; lia|].
  destruct (error_status c); simpl; lia.
Qed.

(** What [main] builds depends on the mode alone. *)
Lemma build_products_mode (args : Namespace) (ps : list Product) :
  build_products args = Ok ps ->
  (ps <> [] <-> mode args = lit "scrape" \/ mode args = lit "api") /\
  (length ps <= 1)%nat /\
  Forall (fun p => source p = mode args) ps.
Proof.
  unfold build_products.
  destruct (str_eqb (mode args) (lit "scrape")) eqn:Es.
  - apply str_eqb_eq in Es.
    destruct (make_id _) as [i|e]; [|discriminate].
    intro H. injection H as <-. split; [|split].
    + split; [auto | discriminate].
    + simpl. lia.
    + repeat constructor. now rewrite Es.
  - destruct (str_eqb (mode args) (lit "api")) eqn:Ea.
    + apply str_eqb_eq in Ea.
      destruct (make_id _) as [i|e]; [|discriminate].
      intro H. injection H as <-. split; [|split].
      * split; [auto | discriminate].
      * simpl. lia.
      * repeat constructor. now rewrite Ea.
    + intro H. injection H as <-. split; [|split].
      * split; [congruence|].
        intros [Hm|Hm]; rewrite Hm, str_eqb_refl in *; discriminate.
      * simpl. lia.
      * constructor.
Qed.

Lemma main_decomp (argv : list str) (args : Namespace) (ps : list Product) :
  parse argv = Ok args ->
  build_products args = Ok ps ->
  main parse w argv
  = (trace (if insert args && nonempty ps
            then supabase_upsert_products w ps else ret tt)
     ++ map Print (RunSucceeded (length ps)
                   :: map (fun p => ItemTitle (title p)) ps),
     Ok 0).
Proof.
  intros Hp Hb. unfold main. rewrite Hp, bind_lift_ok, Hb, bind_lift_ok.
  apply main_tail.
  destruct (insert args && nonempty ps); [|reflexivity].
  destruct (upsert_shape w ps) as (pre & lines & -> & _). reflexivity.
Qed.

Lemma filter_post_prints (lines : list line) :
  filter is_post (map Print lines) = [].
Proof. induction lines as [|l lines IH]; [reflexivity | exact IH]. Qed.

End MainRuns.

(** X10.  Whatever the store and the network do, a run of [main] whose
    arguments parse ends with the success line giving the number of records,
    then one title line per record, and returns 0; the script's exit status
    is 0. *)
Theorem main_always_reports
        (parse : list str -> result MymallScraper.Namespace)
        (w : MymallScraper.world) (argv : list str)
        (args : MymallScraper.Namespace) :
  parse argv = Ok args ->
  exists ps before,
    MymallScraper.build_products args = Ok ps /\
    MymallScraper.main parse w argv
    = (before
       ++ MymallScraper.Print (MymallScraper.RunSucceeded (length ps))
       :: map (fun p => MymallScraper.Print
                          (MymallScraper.ItemTitle (MymallScraper.title p))) ps,
       Ok 0) /\
    exit_status (MymallScraper.script parse w argv) = 0.
Proof.
  intro Hp. destruct (build_products_total args) as [ps Hb].
  exists ps. eexists. split; [exact Hb|].
  rewrite (main_decomp parse w argv args ps Hp Hb).
  split.
  - cbn [map]. rewrite map_map. reflexivity.
  - unfold MymallScraper.script.
    rewrite (main_decomp parse w argv args ps Hp Hb). reflexivity.
Qed.

Lemma main_always_reports_witness :
  MymallScraper.parse_args_plain Runs.argv_api_insert = Ok Runs.args_api_insert /\
  exists ps before,
    MymallScraper.build_products Runs.args_api_insert = Ok ps /\
    MymallScraper.main MymallScraper.parse_args_plain MoreRuns.scraper_unreachable
                       Runs.argv_api_insert
    = (before
       ++ MymallScraper.Print (MymallScraper.RunSucceeded (length ps))
       :: map (fun p => MymallScraper.Print
                          (MymallScraper.ItemTitle (MymallScraper.title p))) ps,
       Ok 0) /\
    exit_status (MymallScraper.script MymallScraper.parse_args_plain
                   MoreRuns.scraper_unreachable Runs.argv_api_insert) = 0.
Proof.
  split; [reflexivity|].
  exact (main_always_reports MymallScraper.parse_args_plain
           MoreRuns.scraper_unreachable Runs.argv_api_insert
           Runs.args_api_insert eq_refl).
Defined.

(** X11.  A run of [main] sends a request exactly when the arguments parse
    with [--insert] set and a mode of [scrape] or [api], the endpoint URL and
    the credential are set and not empty, and [requests] was imported; and it
    never sends more than one. *)
Theorem main_posts_iff
        (parse : list str -> result MymallScraper.Namespace)
        (w : MymallScraper.world) (argv : list str) :
  ((exists req,
       In (MymallScraper.HttpPost req) (trace (MymallScraper.main parse w argv)))
   <-> exists args,
         parse argv = Ok args /\
         MymallScraper.insert args = true /\
         (MymallScraper.mode args = lit "scrape" \/
          MymallScraper.mode args = lit "api") /\
         env_truthy (MymallScraper.SUPABASE_URL w) = true /\
         env_truthy (MymallScraper.SUPABASE_SERVICE_ROLE_KEY w) = true /\
         MymallScraper.requests_imported w = true) /\
  (length (filter is_post (trace (MymallScraper.main parse w argv))) <= 1)%nat.
Proof.
  destruct (parse argv) as [args|e] eqn:Hp.
  2:{ rewrite (main_parse_error parse w argv e Hp). split.
      - split; [intros [req []] | intros (a & Ha & _); discriminate].
      - simpl. lia. }
  destruct (build_products_total args) as [ps Hb].
  destruct (build_products_mode args ps Hb) as (Hmode & _ & _).
  rewrite (main_decomp parse w argv args ps Hp Hb). unfold trace at 1 3. cbn [fst].
  split.
  - split.
    + intros [req H]. apply in_app_or in H.
      destruct H as [H|H]; [|exfalso; exact (in_map_print_post _ _ H)].
      exists args. split; [reflexivity|].
      destruct (MymallScraper.insert args) eqn:Hi; [|destruct H].
      destruct ps as [|p ps']; [destruct H|]. cbn [andb MymallScraper.nonempty] in H.
      split; [reflexivity|]. split; [apply Hmode; discriminate|].
      apply (client_posts_env w (p :: ps')). now exists req.
    + intros (a & Ha & Hi & Hm & Henv). injection Ha as <-.
      apply Hmode in Hm.
      destruct ps as [|p ps']; [congruence|].
      rewrite Hi. cbn [andb MymallScraper.nonempty].
      destruct (proj2 (client_posts_env w (p :: ps')) Henv) as [req H].
      exists req. apply in_or_app. now left.
  - rewrite filter_app, filter_post_prints, app_nil_r.
    destruct (MymallScraper.insert args && MymallScraper.nonempty ps).
    + apply client_post_count.
    + simpl. lia.
Qed.

(** X12.  [main] builds exactly one record when the mode is [scrape] or
    [api] and none for any other mode; the record's [source] is the mode and
    its [id] is the 40-character hash of its [url]. *)
Theorem records_by_mode (args : MymallScraper.Namespace) :
  exists ps,
    MymallScraper.build_products args = Ok ps /\
    ((MymallScraper.mode args = lit "scrape" \/
      MymallScraper.mode args = lit "api") /\
     (exists p, ps = [p] /\
                MymallScraper.source p = MymallScraper.mode args /\
                make_id (MymallScraper.url p) = Ok (MymallScraper.id p) /\
                length (MymallScraper.id p) = 40%nat)
     \/
     (MymallScraper.mode args <> lit "scrape" /\
      MymallScraper.mode args <> lit "api" /\ ps = [])).
Proof.
  destruct (build_products_total args) as [ps Hb]. exists ps.
  split; [exact Hb|].
  destruct (build_products_mode args ps Hb) as (Hmode & Hlen & Hsrc).
  pose proof (build_products_id args ps Hb) as Hid.
  destruct ps as [|p [|q ps']].
  - right. repeat split; try reflexivity;
      intro Hm; apply (proj2 Hmode); auto.
  - left. split; [apply Hmode; discriminate|].
    exists p. split; [reflexivity|].
    inversion Hsrc as [|? ? Hs _]. inversion Hid as [|? ? Hi _]. subst.
    split; [exact Hs|]. split; [exact Hi|].
    unfold make_id in Hi. destruct (UTF8.encode (MymallScraper.url p)); [|discriminate].
    injection Hi as <-. apply hexdigest_length.
  - simpl in Hlen. lia.
Qed.

(** ** [fetch_products] *)

Section Fetch.
Import SyncProducts.

Variable w : world.

(** The ways a call of [fetch_products] goes. *)
Lemma fetch_cases :
  fetch_products w
  = let u := env_value (API_URL w) in
    match get w u with
    | GetRaises =>
        ([Log INFO (Fetching u); HttpGet u None;
          Log ERROR (FetchFailed RequestException)], Ok (JList []))
    | GetResponse c b =>
        if error_status c
        then ([Log INFO (Fetching u); HttpGet u None;
               Log ERROR (FetchFailed HTTPError)], Ok (JList []))
        else match b with
             | None =>
                 ([Log INFO (Fetching u); HttpGet u None;
                   Log ERROR (FetchFailed JSONDecodeError)], Ok (JList []))
             | Some (JDict d) =>
                 ([Log INFO (Fetching u); HttpGet u None],
                  Ok match dict_get (lit "items") d with
                     | Some v => v
                     | None => JList []
                     end)
             | Some _ =>
                 ([Log INFO (Fetching u); HttpGet u None], Raise AttributeError)
             end
    end.
Proof.
  unfold fetch_products, requests_get, raise_for_status, response_json,
    get_items, error_status. cbv zeta.
  destruct (get w (env_value (API_URL w))) as [|c b]; [reflexivity|].
  simpl. destruct ((400 <=? c) && (c <? 600)); [reflexivity|].
  destruct b as [j|]; [|reflexivity].
  destruct j; try reflexivity.
  simpl. now destruct (dict_get (lit "items") d).
Qed.

End Fetch.



(** X14.  On a good status and a JSON object as body, [fetch_products]
    returns what the object holds under [items], whatever its type, and the
    empty list when the key is missing; no error is logged. *)
Theorem fetch_returns_items (w : SyncProducts.world) (c : Z)
        (d : list (str * json)) :
  SyncProducts.get w (SyncProducts.env_value (SyncProducts.API_URL w))
  = SyncProducts.GetResponse c (Some (JDict d)) ->
  c < 400 \/ 600 <= c ->
  SyncProducts.fetch_products w
  = ([ SyncProducts.Log SyncProducts.INFO
         (SyncProducts.Fetching (SyncProducts.env_value (SyncProducts.API_URL w)));
       SyncProducts.HttpGet (SyncProducts.env_value (SyncProducts.API_URL w)) None ],
     Ok match dict_get (lit "items") d with
        | Some v => v
        | None => JList []
        end).
Proof.
  intros Hg Hc. rewrite fetch_cases. cbv zeta. rewrite Hg.
  assert (Ec : error_status c = false) by (unfold error_status; lia).
  now rewrite Ec.
Qed.

Lemma fetch_returns_items_witness :
  let w := MoreRuns.sync_api_answers 200 (Some (JDict [(lit "total", JInt 0)])) in
  SyncProducts.get w (SyncProducts.env_value (SyncProducts.API_URL w))
  = SyncProducts.GetResponse 200 (Some (JDict [(lit "total", JInt 0)])) /\
  (200 < 400 \/ 600 <= 200) /\
  SyncProducts.fetch_products w
  = ([ SyncProducts.Log SyncProducts.INFO
         (SyncProducts.Fetching (SyncProducts.env_value (SyncProducts.API_URL w)));
       SyncProducts.HttpGet (SyncProducts.env_value (SyncProducts.API_URL w)) None ],
     Ok match dict_get (lit "items") [(lit "total", JInt 0)] with
        | Some v => v
        | None => JList []
        end).
Proof.
  cbv zeta. split; [reflexivity|]. split; [left; lia|].
  exact (fetch_returns_items
           (MoreRuns.sync_api_answers 200 (Some (JDict [(lit "total", JInt 0)])))
           200 [(lit "total", JInt 0)] eq_refl (or_introl eq_refl)).
Defined.


(** ** [upsert_products] and the script around it *)

Section Upsert.
Import SyncProducts.

Variable w : world.

(** After the tagging loop: the write and what is logged about it. *)
Lemma write_cases (rows : json) (n : nat) :
  (log INFO (Upserting n) ;;
   response <- store_upsert w rows ;;
   if truthy (fst response) then
     k <- lift (py_len (fst response)) ;; log INFO (Upserted k)
   else
     err <- response_error (snd response) ;;
     log ERROR (UpsertRejected err))%py
  = match execute w rows with
    | StoreRaises =>
        ([Log INFO (Upserting n); StoreUpsert (lit "products") rows [lit "id"]],
         Raise StoreClientError)
    | StoreResponse data error =>
        if truthy data then
          match py_len data with
          | Ok k =>
              ([Log INFO (Upserting n);
                StoreUpsert (lit "products") rows [lit "id"];
                Log INFO (Upserted k)], Ok tt)
          | Raise e =>
              ([Log INFO (Upserting n);
                StoreUpsert (lit "products") rows [lit "id"]], Raise e)
          end
        else
          match error with
          | Some err =>
              ([Log INFO (Upserting n);
                StoreUpsert (lit "products") rows [lit "id"];
                Log ERROR (UpsertRejected err)], Ok tt)
          | None =>
              ([Log INFO (Upserting n);
                StoreUpsert (lit "products") rows [lit "id"]],
               Raise AttributeError)
          end
    end.
Proof.
  unfold store_upsert, response_error, log, emit.
  destruct (execute w rows) as [|data error]; [reflexivity|].
  simpl. destruct (truthy data); [|now destruct error].
  now destruct (py_len data).
Qed.

Lemma add_member_id_result (m : str) (items : list json) :
  snd (add_member_id m items) = Ok tt \/
  snd (add_member_id m items) = Raise TypeError.
Proof.
  induction items as [|x items IH]; [now left|].
  cbn [add_member_id]. destruct x; try (now right).
  destruct (add_member_id m items). exact IH.
Qed.

Lemma add_member_id_prefix (m : str) (ds : list (list (str * json)))
      (x : json) (rest : list json) :
  is_dict x = false ->
  add_member_id m (map JDict ds ++ x :: rest)
  = (map (fun d => JDict (dict_set (lit "member_id") (JStr m) d)) ds ++ x :: rest,
     Raise TypeError).
Proof.
  intro Hx. induction ds as [|d ds IH].
  - cbn [map app add_member_id]. destruct x; try reflexivity. discriminate.
  - cbn [map app add_member_id]. now rewrite IH.
Qed.

(** What [upsert_products] does on any value. *)
Lemma upsert_cases_any (products : json) :
  upsert_products w products
  = if negb (truthy products)
    then (products, ([Log INFO NothingToUpsert], Ok tt))
    else match products with
         | JList items =>
             let (items', r) := add_member_id (env_value (MEMBER_ID w)) items in
             (JList items',
              match r with
              | Ok _ =>
                  (log INFO (Upserting (length items')) ;;
                   response <- store_upsert w (JList items') ;;
                   if truthy (fst response) then
                     k <- lift (py_len (fst response)) ;; log INFO (Upserted k)
                   else
                     err <- response_error (snd response) ;;
                     log ERROR (UpsertRejected err))%py
              | Raise e => ([], Raise e)
              end)
         | other => (other, ([], Raise TypeError))
         end.
Proof.
  unfold upsert_products, tag_products.
  destruct (negb (truthy products)); [reflexivity|].
  destruct products; try reflexivity.
  destruct (add_member_id (env_value (MEMBER_ID w)) l) as [items' [[]|e]].
  - rewrite bind_lift_ok. cbn [py_len]. now rewrite bind_lift_ok.
  - reflexivity.
Qed.

Lemma upsert_outcomes (products : json) :
  outcome (snd (upsert_products w products)) = Ok tt \/
  outcome (snd (upsert_products w products)) = Raise TypeError \/
  outcome (snd (upsert_products w products)) = Raise StoreClientError \/
  outcome (snd (upsert_products w products)) = Raise AttributeError.
Proof.
  rewrite upsert_cases_any.
  destruct (negb (truthy products)); [now left|].
  destruct products; try (right; left; reflexivity).
  pose proof (add_member_id_result (env_value (MEMBER_ID w)) l) as Hr.
  destruct (add_member_id (env_value (MEMBER_ID w)) l) as [items' r].
  cbn [snd] in *. destruct Hr as [->| ->]; [|right; left; reflexivity].
  rewrite write_cases.
  destruct (execute w _) as [|data error]; [right; right; left; reflexivity|].
  destruct (truthy data);
    [|destruct error; [now left | right; right; right; reflexivity]].
  destruct data; cbn [py_len]; try (now left); right; left; reflexivity.
Qed.

Lemma upsert_counts (products : json) :
  filter is_get (trace (snd (upsert_products w products))) = [] /\
  (length (filter is_write (trace (snd (upsert_products w products)))) <= 1)%nat.
Proof.
  rewrite upsert_cases_any.
  destruct (negb (truthy products)); [split; [reflexivity | simpl; lia]|].
  destruct products; try (split; [reflexivity | simpl; lia]).
  destruct (add_member_id (env_value (MEMBER_ID w)) l) as [items' [[]|e]];
    [|split; [reflexivity | simpl; lia]].
  cbn [snd]. rewrite write_cases.
  destruct (execute w _) as [|data error]; [split; [reflexivity | simpl; lia]|].
  destruct (truthy data);
    [|destruct error; split; try reflexivity; simpl; lia].
  destruct (py_len data); split; try reflexivity; simpl; lia.
Qed.

Lemma dict_set_idem {V} (k : str) (v : V) (d : list (str * V)) :
  dict_set k v (dict_set k v d) = dict_set k v d.
Proof.
  induction d as [|[k0 v0] d IH]; cbn [dict_set].
  - now rewrite str_eqb_refl.
  - destruct (str_eqb k k0) eqn:E; cbn [dict_set].
    + now rewrite str_eqb_refl.
    + now rewrite E, IH.
Qed.

Lemma dict_set_keys {V} (k : str) (v : V) (d : list (str * V)) :
  dict_keys (dict_set k v d)
  = if existsb (str_eqb k) (dict_keys d) then dict_keys d
    else dict_keys d ++ [k].
Proof.
  unfold dict_keys. induction d as [|[k0 v0] d IH]; [reflexivity|].
  cbn [dict_set map fst existsb].
  destruct (str_eqb k k0) eqn:E; cbn [orb map fst].
  - apply str_eqb_eq in E. now subst k0.
  - rewrite IH. now destruct (existsb (str_eqb k) (map fst d)).
Qed.

Lemma fetch_raises_attribute (e : exn) :
  outcome (fetch_products w) = Raise e -> e = AttributeError.
Proof.
  rewrite fetch_cases. cbv zeta.
  destruct (get w _) as [|c b]; [discriminate|].
  destruct (error_status c); [discriminate|].
  destruct b as [j|]; [|discriminate].
  destruct j; try discriminate; intro H; now injection H.
Qed.

Lemma script_outcomes :
  configured w = true ->
  outcome (script w) = Ok tt \/
  outcome (script w) = Raise StoreClientError \/
  outcome (script w) = Raise AttributeError \/
  outcome (script w) = Raise TypeError.
Proof.
  intro Hc.
  destruct (create_client w (env_value (SUPABASE_URL w)) (env_value (SUPABASE_KEY w)))
    eqn:Hk.
  - rewrite (script_configured w Hc Hk), bind_outcome.
    destruct (outcome (fetch_products w)) as [products|e] eqn:Hf.
    + destruct (truthy products); [|now left].
      destruct (upsert_outcomes products) as [H|[H|[H|H]]]; rewrite H; auto.
    + apply fetch_raises_attribute in Hf. subst e. auto.
  - unfold script. rewrite Hc, Hk. right. left. reflexivity.
Qed.

End Upsert.

(** X16.  [upsert_products] writes to the store exactly when it is given a
    non-empty list whose items are all dicts; on an empty or falsy value, a
    value that is no list, or a list with an item that is not a dict, there
    is no write. *)
Theorem upsert_writes_iff (w : SyncProducts.world) (products : json) :
  (exists table rows oc,
      In (SyncProducts.StoreUpsert table rows oc)
         (trace (snd (SyncProducts.upsert_products w products))))
  <-> exists d ds, products = JList (map JDict (d :: ds)).
Proof.
  split.
  - intros (table & rows & oc & H).
    destruct (truthy products) eqn:Ht.
    + destruct (upsert_products_sent w products table rows oc Ht H)
        as (ds & Hne & -> & _).
      destruct ds as [|d ds]; [congruence|]. now exists d, ds.
    + rewrite upsert_cases_any, Ht in H. destruct H as [H|[]]. discriminate.
  - intros (d & ds & ->).
    rewrite (upsert_dicts w (d :: ds)) by discriminate. cbn [snd].
    rewrite write_cases.
    exists (lit "products"), (JList (map (SyncProducts.tagged w) (d :: ds))), [lit "id"].
    destruct (SyncProducts.execute w _) as [|data error]; [right; now left|].
    destruct (truthy data); [|destruct error; right; now left].
    destruct (py_len data); right; now left.
Qed.

Lemma upsert_partial_update_any (w : SyncProducts.world)
      (ds : list (list (str * json))) (x : json) (rest : list json) :
  is_dict x = false ->
  SyncProducts.upsert_products w (JList (map JDict ds ++ x :: rest))
  = (JList (map (SyncProducts.tagged w) ds ++ x :: rest), ([], Raise TypeError)).
Proof.
  intro Hx. rewrite upsert_cases_any.
  assert (Ht : truthy (JList (map JDict ds ++ x :: rest)) = true)
    by (destruct ds; reflexivity).
  rewrite Ht. cbn [negb].
  now rewrite (add_member_id_prefix _ ds x rest Hx).
Qed.

(** X17.  When the list holds an item that is not a dict, the loop stops
    there with [TypeError] and nothing is written, but the dicts before that
    item have already been given their [member_id]: the caller's list is left
    half updated, the item and everything after it untouched. *)
Theorem upsert_partial_update (w : SyncProducts.world)
        (ds : list (list (str * json))) (x : json) (rest : list json) :
  is_dict x = false ->
  SyncProducts.upsert_products w (JList (map JDict ds ++ x :: rest))
  = (JList (map (SyncProducts.tagged w) ds ++ x :: rest), ([], Raise TypeError)).
Proof.
  intro Hx. rewrite upsert_cases_any.
  assert (Ht : truthy (JList (map JDict ds ++ x :: rest)) = true)
    by (destruct ds; reflexivity).
  rewrite Ht. cbn [negb].
  now rewrite (add_member_id_prefix _ ds x rest Hx).
Qed.

Lemma upsert_partial_update_witness :
  let w := Runs.sync_world (Runs.feed []) Runs.store_echo in
  is_dict (JStr (lit "oops")) = false /\
  SyncProducts.upsert_products w
    (JList (map JDict [Runs.raw_full] ++ JStr (lit "oops") :: [JDict Runs.raw_without_url]))
  = (JList (map (SyncProducts.tagged w) [Runs.raw_full]
            ++ JStr (lit "oops") :: [JDict Runs.raw_without_url]),
     ([], Raise TypeError)).
Proof.
  cbv zeta. split; [reflexivity|].
  exact (upsert_partial_update (Runs.sync_world (Runs.feed []) Runs.store_echo)
           [Runs.raw_full] (JStr (lit "oops")) [JDict Runs.raw_without_url]
           eq_refl).
Defined.

(** X18.  Tagging is idempotent: calling [upsert_products] again on the list
    it has already updated leaves every record as it is. *)
Theorem upsert_rerun_same (w : SyncProducts.world)
        (ds : list (list (str * json))) :
  fst (SyncProducts.upsert_products w
         (fst (SyncProducts.upsert_products w (JList (map JDict ds)))))
  = fst (SyncProducts.upsert_products w (JList (map JDict ds))).
Proof.
  destruct ds as [|d ds]; [reflexivity|].
  rewrite (upsert_dicts w (d :: ds)) by discriminate. cbn [fst].
  assert (Hm : map (SyncProducts.tagged w) (d :: ds)
               = map JDict (map (dict_set (lit "member_id")
                      (JStr (SyncProducts.env_value (SyncProducts.MEMBER_ID w))))
                      (d :: ds)))
    by (now rewrite map_map).
  rewrite Hm.
  rewrite (upsert_dicts w (map (dict_set (lit "member_id")
             (JStr (SyncProducts.env_value (SyncProducts.MEMBER_ID w)))) (d :: ds)))
    by discriminate.
  cbn [fst]. apply (f_equal JList). rewrite !map_map. apply map_ext. intro a.
  unfold SyncProducts.tagged. now rewrite dict_set_idem.
Qed.

(** The keys of a tagged dict. *)
Lemma tagged_keys (w : SyncProducts.world) (d : list (str * json)) :
  json_keys (SyncProducts.tagged w d)
  = (if existsb (str_eqb (lit "member_id")) (dict_keys d)
     then dict_keys d
     else dict_keys d ++ [lit "member_id"]) /\
  field (lit "member_id") (SyncProducts.tagged w d)
  = Some (JStr (SyncProducts.env_value (SyncProducts.MEMBER_ID w))).
Proof.
  unfold SyncProducts.tagged, json_keys, field. split.
  - apply dict_set_keys.
  - apply dict_get_set_same.
Qed.

(** X19.  For every non-empty list of dicts, the rows [upsert_products]
    writes to the store (which are also what the caller's list then holds)
    correspond one to one to the fetched dicts: in each, [member_id] takes
    the place of a [member_id] the API supplied (keys and their order
    unchanged) and is appended as the last key otherwise; either way its
    value is MEMBER_ID. *)
Theorem sent_record_keys (w : SyncProducts.world)
        (ds : list (list (str * json))) :
  ds <> [] ->
  exists rows,
    In (SyncProducts.StoreUpsert (lit "products") (JList rows) [lit "id"])
       (trace (snd (SyncProducts.upsert_products w (JList (map JDict ds))))) /\
    fst (SyncProducts.upsert_products w (JList (map JDict ds))) = JList rows /\
    Forall2
      (fun d r =>
         json_keys r
         = (if existsb (str_eqb (lit "member_id")) (dict_keys d)
            then dict_keys d
            else dict_keys d ++ [lit "member_id"]) /\
         field (lit "member_id") r
         = Some (JStr (SyncProducts.env_value (SyncProducts.MEMBER_ID w))))
      ds rows.
Proof.
  intro Hne. exists (map (SyncProducts.tagged w) ds).
  rewrite (upsert_dicts w ds Hne). cbn [fst snd]. split; [|split].
  - rewrite write_cases.
    destruct (SyncProducts.execute w _) as [|data error]; [right; now left|].
    destruct (truthy data); [|destruct error; right; now left].
    destruct (py_len data); right; now left.
  - reflexivity.
  - clear Hne. induction ds as [|d ds IH]; cbn [map]; constructor.
    + apply tagged_keys.
    + exact IH.
Qed.

Lemma sent_record_keys_witness :
  let w := Runs.sync_world (Runs.feed []) Runs.store_echo in
  let ds := [MoreRuns.raw_with_member; Runs.raw_without_url] in
  ds <> [] /\
  exists rows,
    In (SyncProducts.StoreUpsert (lit "products") (JList rows) [lit "id"])
       (trace (snd (SyncProducts.upsert_products w (JList (map JDict ds))))) /\
    fst (SyncProducts.upsert_products w (JList (map JDict ds))) = JList rows /\
    Forall2
      (fun d r =>
         json_keys r
         = (if existsb (str_eqb (lit "member_id")) (dict_keys d)
            then dict_keys d
            else dict_keys d ++ [lit "member_id"]) /\
         field (lit "member_id") r
         = Some (JStr (SyncProducts.env_value (SyncProducts.MEMBER_ID w))))
      ds rows.
Proof.
  cbv zeta. split; [discriminate|].
  exact (sent_record_keys (Runs.sync_world (Runs.feed []) Runs.store_echo)
           [MoreRuns.raw_with_member; Runs.raw_without_url]
           ltac:(discriminate)).
Defined.

Example tagged_overrides_member :
  let w := Runs.sync_world (Runs.feed []) Runs.store_echo in
  SyncProducts.tagged w MoreRuns.raw_with_member
  = JDict [ (lit "member_id", JStr Runs.member); (lit "id", JStr (lit "9")) ].
Proof. vm_compute. reflexivity. Qed.

(** X20.  When the store answers without data, what happens next depends
    on the response object.  If it has an [error] attribute, the script logs
    the rejection with it as an error and ends normally, status 0.  If it has
    none (the current client), reading [response.error] raises
    [AttributeError] after the write: nothing more is logged and the process
    ends with status 1. *)
Theorem script_store_rejects (w : SyncProducts.world)
        (ds : list (list (str * json))) (data : json) (error : option json) :
  SyncProducts.configured w = true ->
  SyncProducts.create_client w
    (SyncProducts.env_value (SyncProducts.SUPABASE_URL w))
    (SyncProducts.env_value (SyncProducts.SUPABASE_KEY w)) = true ->
  outcome (SyncProducts.fetch_products w) = Ok (JList (map JDict ds)) ->
  ds <> [] ->
  SyncProducts.execute w (JList (map (SyncProducts.tagged w) ds))
  = SyncProducts.StoreResponse data error ->
  truthy data = false ->
  SyncProducts.script w
  = match error with
    | Some err =>
        (trace (SyncProducts.fetch_products w)
         ++ [ SyncProducts.Log SyncProducts.INFO (SyncProducts.Upserting (length ds));
              SyncProducts.StoreUpsert (lit "products")
                (JList (map (SyncProducts.tagged w) ds)) [lit "id"];
              SyncProducts.Log SyncProducts.ERROR (SyncProducts.UpsertRejected err) ],
         Ok tt)
    | None =>
        (trace (SyncProducts.fetch_products w)
         ++ [ SyncProducts.Log SyncProducts.INFO (SyncProducts.Upserting (length ds));
              SyncProducts.StoreUpsert (lit "products")
                (JList (map (SyncProducts.tagged w) ds)) [lit "id"] ],
         Raise AttributeError)
    end /\
  exit_status (SyncProducts.script w)
  = match error with
    | Some _ => 0
    | None => 1
    end.
Proof.
  intros Hc Hk Hf Hne Hx Hd.
  assert (Hs : SyncProducts.script w
    = (trace (SyncProducts.fetch_products w)
       ++ trace (snd (SyncProducts.upsert_products w (JList (map JDict ds)))),
       outcome (snd (SyncProducts.upsert_products w (JList (map JDict ds)))))).
  { rewrite (script_configured w Hc Hk).
    destruct (SyncProducts.fetch_products w) as [tf rf] eqn:Ef.
    unfold outcome in Hf. cbn [snd] in Hf. subst rf.
    rewrite bind_pure. cbn [trace fst].
    assert (Ht : truthy (JList (map JDict ds)) = true)
      by (destruct ds; [congruence | reflexivity]).
    now rewrite Ht. }
  rewrite Hs, (upsert_dicts w ds Hne). cbn [snd].
  rewrite write_cases, Hx, Hd.
  destruct error as [err|]; split; reflexivity.
Qed.

Lemma script_store_rejects_witness :
  let w := Runs.sync_world (Runs.feed [JDict Runs.raw_full])
                           MoreRuns.store_silent_bare in
  SyncProducts.configured w = true /\
  SyncProducts.create_client w
    (SyncProducts.env_value (SyncProducts.SUPABASE_URL w))
    (SyncProducts.env_value (SyncProducts.SUPABASE_KEY w)) = true /\
  outcome (SyncProducts.fetch_products w) = Ok (JList (map JDict [Runs.raw_full])) /\
  [Runs.raw_full] <> [] /\
  SyncProducts.execute w (JList (map (SyncProducts.tagged w) [Runs.raw_full]))
  = SyncProducts.StoreResponse (JList []) None /\
  truthy (JList []) = false /\
  SyncProducts.script w
  = (trace (SyncProducts.fetch_products w)
     ++ [ SyncProducts.Log SyncProducts.INFO
            (SyncProducts.Upserting (length [Runs.raw_full]));
          SyncProducts.StoreUpsert (lit "products")
            (JList (map (SyncProducts.tagged w) [Runs.raw_full])) [lit "id"] ],
     Raise AttributeError) /\
  exit_status (SyncProducts.script w) = 1.
Proof.
  cbv zeta. split; [reflexivity|]. split; [reflexivity|].
  split; [reflexivity|]. split; [discriminate|].
  split; [reflexivity|]. split; [reflexivity|].
  exact (script_store_rejects
           (Runs.sync_world (Runs.feed [JDict Runs.raw_full])
                            MoreRuns.store_silent_bare)
           [Runs.raw_full] (JList []) None
           eq_refl eq_refl eq_refl ltac:(discriminate) eq_refl eq_refl).
Defined.

(** The same answer from a client whose response carries an [error]. *)
Example script_store_rejects_logged :
  let w := Runs.sync_world (Runs.feed [JDict Runs.raw_full]) MoreRuns.store_silent in
  SyncProducts.script w
  = ([ SyncProducts.Log SyncProducts.INFO (SyncProducts.Fetching Runs.api);
       SyncProducts.HttpGet Runs.api None;
       SyncProducts.Log SyncProducts.INFO (SyncProducts.Upserting 1);
       SyncProducts.StoreUpsert (lit "products")
         (JList [SyncProducts.tagged w Runs.raw_full]) [lit "id"];
       SyncProducts.Log SyncProducts.ERROR
         (SyncProducts.UpsertRejected (JStr (lit "duplicate key"))) ],
     Ok tt)
  /\ exit_status (SyncProducts.script w) = 0.
Proof. split; vm_compute; reflexivity. Qed.

(** X21.  When the fetch gives nothing (an empty list, a missing [items]
    key, a null, or a fetch that failed and returned its empty list), the
    script logs the warning, writes nothing to the store and ends normally,
    status 0. *)
Theorem script_nothing_fetched (w : SyncProducts.world) (v : json) :
  SyncProducts.configured w = true ->
  SyncProducts.create_client w
    (SyncProducts.env_value (SyncProducts.SUPABASE_URL w))
    (SyncProducts.env_value (SyncProducts.SUPABASE_KEY w)) = true ->
  outcome (SyncProducts.fetch_products w) = Ok v ->
  truthy v = false ->
  SyncProducts.script w
  = (trace (SyncProducts.fetch_products w)
     ++ [SyncProducts.Log SyncProducts.WARNING SyncProducts.NothingFetched],
     Ok tt) /\
  exit_status (SyncProducts.script w) = 0 /\
  filter is_write (trace (SyncProducts.script w)) = [].
Proof.
  intros Hc Hk Hf Ht.
  assert (Hs : SyncProducts.script w
    = (trace (SyncProducts.fetch_products w)
       ++ [SyncProducts.Log SyncProducts.WARNING SyncProducts.NothingFetched],
       Ok tt)).
  { rewrite (script_configured w Hc Hk).
    destruct (SyncProducts.fetch_products w) as [tf rf] eqn:Ef.
    unfold outcome in Hf. cbn [snd] in Hf. subst rf.
    rewrite bind_pure, Ht. reflexivity. }
  split; [exact Hs|]. split; [rewrite Hs; reflexivity|].
  rewrite Hs. cbn [trace fst]. rewrite filter_app.
  destruct (fetch_shape w) as [errors ->]. cbn [filter is_write app].
  induction errors as [|e errors IH]; [reflexivity | exact IH].
Qed.

Lemma script_nothing_fetched_witness :
  SyncProducts.configured MoreRuns.sync_api_down = true /\
  SyncProducts.create_client MoreRuns.sync_api_down
    (SyncProducts.env_value (SyncProducts.SUPABASE_URL MoreRuns.sync_api_down))
    (SyncProducts.env_value (SyncProducts.SUPABASE_KEY MoreRuns.sync_api_down))
  = true /\
  outcome (SyncProducts.fetch_products MoreRuns.sync_api_down) = Ok (JList []) /\
  truthy (JList []) = false /\
  SyncProducts.script MoreRuns.sync_api_down
  = (trace (SyncProducts.fetch_products MoreRuns.sync_api_down)
     ++ [SyncProducts.Log SyncProducts.WARNING SyncProducts.NothingFetched],
     Ok tt) /\
  exit_status (SyncProducts.script MoreRuns.sync_api_down) = 0 /\
  filter is_write (trace (SyncProducts.script MoreRuns.sync_api_down)) = [].
Proof.
  split; [reflexivity|]. split; [reflexivity|].
  split; [reflexivity|]. split; [reflexivity|].
  exact (script_nothing_fetched MoreRuns.sync_api_down (JList [])
           eq_refl eq_refl eq_refl eq_refl).
Defined.

Lemma configured_false_iff (w : SyncProducts.world) :
  SyncProducts.configured w = false
  <-> exists v,
        In v [ SyncProducts.SUPABASE_URL w; SyncProducts.SUPABASE_KEY w;
               SyncProducts.MEMBER_ID w; SyncProducts.API_URL w ] /\
        (v = None \/ v = Some []).
Proof.
  assert (T : forall v : option str,
             env_truthy v = false <-> v = None \/ v = Some []).
  { intros [[|c s]|]; simpl; split; auto;
      try discriminate; intros [H|H]; discriminate. }
  unfold SyncProducts.configured. split.
  - intro H.
    destruct (env_truthy (SyncProducts.SUPABASE_URL w)) eqn:E1;
      [|exists (SyncProducts.SUPABASE_URL w); split; [simpl; auto | now apply T]].
    destruct (env_truthy (SyncProducts.SUPABASE_KEY w)) eqn:E2;
      [|exists (SyncProducts.SUPABASE_KEY w); split; [simpl; auto | now apply T]].
    destruct (env_truthy (SyncProducts.MEMBER_ID w)) eqn:E3;
      [|exists (SyncProducts.MEMBER_ID w); split; [simpl; auto | now apply T]].
    destruct (env_truthy (SyncProducts.API_URL w)) eqn:E4; [discriminate|].
    exists (SyncProducts.API_URL w). split; [simpl; auto | now apply T].
  - intros (v & Hin & Hv). apply T in Hv.
    destruct Hin as [<-|[<-|[<-|[<-|[]]]]]; rewrite Hv;
      repeat rewrite andb_false_r; reflexivity.
Qed.

(** X22.  The script stops through [exit(1)] exactly when one of the four
    variables SUPABASE_URL, SUPABASE_KEY, MEMBER_ID, API_URL is unset or
    empty; then the missing configuration is the only thing logged and no
    request of any kind has gone out. *)
Theorem script_exit_iff_unconfigured (w : SyncProducts.world) :
  (outcome (SyncProducts.script w) = Raise (SystemExit 1)
   <-> exists v,
         In v [ SyncProducts.SUPABASE_URL w; SyncProducts.SUPABASE_KEY w;
                SyncProducts.MEMBER_ID w; SyncProducts.API_URL w ] /\
         (v = None \/ v = Some [])) /\
  (forall c, outcome (SyncProducts.script w) = Raise (SystemExit c) ->
             SyncProducts.script w
             = ([SyncProducts.Log SyncProducts.ERROR SyncProducts.MissingEnvironment],
                Raise (SystemExit 1))).
Proof.
  assert (Hex : forall c, outcome (SyncProducts.script w) = Raise (SystemExit c) ->
                          SyncProducts.configured w = false).
  { intros c H. destruct (SyncProducts.configured w) eqn:Hc; [|reflexivity].
    destruct (script_outcomes w Hc) as [E|[E|[E|E]]]; rewrite E in H; discriminate. }
  split; [split|].
  - intro H. apply configured_false_iff. exact (Hex 1 H).
  - intro H. apply configured_false_iff in H.
    now rewrite (script_unconfigured w H).
  - intros c H. exact (script_unconfigured w (Hex c H)).
Qed.


(** X24.  A run of the script issues at most one GET and at most one store
    write, and never writes without having fetched. *)
Theorem script_request_counts (w : SyncProducts.world) :
  (length (filter is_write (trace (SyncProducts.script w)))
   <= length (filter is_get (trace (SyncProducts.script w))) <= 1)%nat.
Proof.
  destruct (SyncProducts.configured w) eqn:Hc;
    [|rewrite (script_unconfigured w Hc); simpl; lia].
  destruct (SyncProducts.create_client w
              (SyncProducts.env_value (SyncProducts.SUPABASE_URL w))
              (SyncProducts.env_value (SyncProducts.SUPABASE_KEY w))) eqn:Hk;
    [|unfold SyncProducts.script; rewrite Hc, Hk; simpl; lia].
  rewrite (script_configured w Hc Hk), bind_trace, !filter_app, !length_app.
  assert (Hg : length (filter is_get (trace (SyncProducts.fetch_products w))) = 1%nat
               /\ filter is_write (trace (SyncProducts.fetch_products w)) = []).
  { destruct (fetch_shape w) as [errors ->]. cbn [filter is_get is_write].
    split; [cbn [length]; f_equal|];
      induction errors as [|e errors IH]; try reflexivity; exact IH. }
  destruct Hg as [Hg ->]. rewrite Hg. cbn [length].
  destruct (outcome (SyncProducts.fetch_products w)) as [products|e];
    [|simpl; lia].
  destruct (truthy products); [|simpl; lia].
  destruct (upsert_counts w products) as [-> Hw]. simpl. lia.
Qed.

(** ** The records [sync_products.py] forwards *)

Section Forwarding.
Import SyncProducts.

Variable w : world.

Lemma all_dicts (items : list json) :
  forallb is_dict items = true -> exists ds, items = map JDict ds.
Proof.
  induction items as [|x items IH]; intro H; [now exists []|].
  cbn [forallb] in H. apply andb_prop in H. destruct H as [Hx Hr].
  destruct (IH Hr) as [ds ->].
  destruct x; try discriminate. now exists (d :: ds).
Qed.

Lemma first_non_dict (items : list json) :
  forallb is_dict items = false ->
  exists ds x rest, items = map JDict ds ++ x :: rest /\ is_dict x = false.
Proof.
  induction items as [|x items IH]; intro H; [discriminate|].
  cbn [forallb] in H. destruct (is_dict x) eqn:Hx.
  - cbn [andb] in H. destruct (IH H) as (ds & y & rest & -> & Hy).
    destruct x; try discriminate. now exists (d :: ds), y, rest.
  - now exists [], x, items.
Qed.

Lemma upsert_no_warning (products : json) (m : message) :
  ~ In (Log WARNING m) (trace (snd (upsert_products w products))).
Proof.
  rewrite upsert_cases_any.
  destruct (negb (truthy products)); [intros [H|[]]; discriminate|].
  destruct products; try (intros []).
  destruct (add_member_id (env_value (MEMBER_ID w)) l) as [items' [[]|e]];
    [|intros []].
  cbn [snd]. rewrite write_cases.
  destruct (execute w _) as [|data error].
  - intros [H|[H|[]]]; discriminate.
  - destruct (truthy data).
    + destruct (py_len data); intros [H|[H|H]]; try discriminate;
        try (destruct H as [H|[]]; discriminate); destruct H.
    + destruct error; intros [H|[H|H]]; try discriminate;
        try (destruct H as [H|[]]; discriminate); destruct H.
Qed.

End Forwarding.

(** C5 (amended).  The second script has no normalization step and no
    required field.  With the configuration present and a non-empty list
    fetched: when every item of the list is a JSON object, each of them is
    written to the store in one write, tagged with the member id, whether or
    not it has a [url], and none is dropped; when some item is not an
    object, the tagging loop raises [TypeError] and nothing is written.  In
    neither case is a warning logged. *)
Theorem sync_forwards_every_record (w : SyncProducts.world) (items : list json) :
  SyncProducts.configured w = true ->
  SyncProducts.create_client w
    (SyncProducts.env_value (SyncProducts.SUPABASE_URL w))
    (SyncProducts.env_value (SyncProducts.SUPABASE_KEY w)) = true ->
  outcome (SyncProducts.fetch_products w) = Ok (JList items) ->
  items <> [] ->
  (forall m, ~ In (SyncProducts.Log SyncProducts.WARNING m)
                  (trace (SyncProducts.script w))) /\
  if forallb is_dict items
  then exists rows,
         In (SyncProducts.StoreUpsert (lit "products") (JList rows) [lit "id"])
            (trace (SyncProducts.script w)) /\
         length rows = length items /\
         forall d, In (JDict d) items -> In (SyncProducts.tagged w d) rows
  else outcome (SyncProducts.script w) = Raise TypeError /\
       filter is_write (trace (SyncProducts.script w)) = [].
Proof.
  intros Hc Hk Hf Hne.
  assert (Ht : truthy (JList items) = true)
    by (destruct items; [congruence | reflexivity]).
  assert (Hs : SyncProducts.script w
    = (trace (SyncProducts.fetch_products w)
       ++ trace (snd (SyncProducts.upsert_products w (JList items))),
       outcome (snd (SyncProducts.upsert_products w (JList items))))).
  { rewrite (script_configured w Hc Hk).
    destruct (SyncProducts.fetch_products w) as [tf rf] eqn:Ef.
    unfold outcome in Hf. cbn [snd] in Hf. subst rf.
    rewrite bind_pure. cbn [trace fst]. now rewrite Ht. }
  split.
  - intros m H. rewrite Hs in H. cbn [trace fst] in H.
    apply in_app_or in H. destruct H as [H|H].
    + exact (fetch_no_warning w m H).
    + exact (upsert_no_warning w _ m H).
  - destruct (forallb is_dict items) eqn:Hall.
    + destruct (all_dicts items Hall) as [ds ->].
      assert (Hds : ds <> []) by (intros ->; now apply Hne).
      destruct (script_forwards w ds Hc Hk Hf Hds) as [Hin _].
      exists (map (SyncProducts.tagged w) ds). split; [exact Hin|]. split.
      * now rewrite !length_map.
      * intros d Hd. apply in_map_iff in Hd. destruct Hd as (d' & Hd' & Hin').
        injection Hd' as ->. now apply in_map.
    + destruct (first_non_dict items Hall) as (ds & x & rest & -> & Hx).
      rewrite Hs.
      rewrite (upsert_partial_update_any w ds x rest Hx).
      cbn [snd trace outcome fst]. split; [reflexivity|].
      rewrite app_nil_r.
      destruct (fetch_shape w) as [errors ->]. cbn [filter is_write].
      induction errors as [|e errors IH]; [reflexivity | exact IH].
Qed.

Lemma sync_forwards_every_record_witness :
  let w := Runs.sync_world
             (Runs.feed [JDict Runs.raw_without_url; JDict Runs.raw_full])
             Runs.store_echo in
  let items := [JDict Runs.raw_without_url; JDict Runs.raw_full] in
  SyncProducts.configured w = true /\
  SyncProducts.create_client w
    (SyncProducts.env_value (SyncProducts.SUPABASE_URL w))
    (SyncProducts.env_value (SyncProducts.SUPABASE_KEY w)) = true /\
  outcome (SyncProducts.fetch_products w) = Ok (JList items) /\
  items <> [] /\
  (forall m, ~ In (SyncProducts.Log SyncProducts.WARNING m)
                  (trace (SyncProducts.script w))) /\
  if forallb is_dict items
  then exists rows,
         In (SyncProducts.StoreUpsert (lit "products") (JList rows) [lit "id"])
            (trace (SyncProducts.script w)) /\
         length rows = length items /\
         forall d, In (JDict d) items -> In (SyncProducts.tagged w d) rows
  else outcome (SyncProducts.script w) = Raise TypeError /\
       filter is_write (trace (SyncProducts.script w)) = [].
Proof.
  cbv zeta. split; [reflexivity|]. split; [reflexivity|].
  split; [reflexivity|]. split; [discriminate|].
  exact (sync_forwards_every_record
           (Runs.sync_world
              (Runs.feed [JDict Runs.raw_without_url; JDict Runs.raw_full])
              Runs.store_echo)
           [JDict Runs.raw_without_url; JDict Runs.raw_full]
           eq_refl eq_refl eq_refl ltac:(discriminate)).
Defined.

(** ** The identifier is the SHA-1 of the UTF-8 octets *)

Ltac decide_branches :=
  repeat match goal with
         | |- context [if ?b then _ else _] =>
             let E := fresh "E" in
             destruct b eqn:E;
             try (exfalso; unfold continuation in *;
                  Z.div_mod_to_equations; lia)
         end.

(** Reading back one encoded code point. *)
Lemma decode_encode_cp (c : Z) (r : bytes) :
  UTF8.scalar c = true ->
  utf8_decode (UTF8.encode_cp c ++ r) = option_map (cons c) (utf8_decode r).
Proof.
  intro Hc. rewrite (encode_cp_arith c Hc).
  unfold UTF8.scalar in Hc.
  assert (R : 0 <= c < 0xD800 \/ 0xE000 <= c <= 0x10FFFF) by lia.
  clear Hc.
  destruct (c <? 0x80) eqn:E1; [|destruct (c <? 0x800) eqn:E2;
                                  [|destruct (c <? 0x10000) eqn:E3]];
  cbn [app utf8_decode]; cbv zeta; decide_branches;
  match goal with
  | |- option_map (cons ?v) _ = _ =>
      replace v with c by (Z.div_mod_to_equations; lia); reflexivity
  end.
Qed.

(** The octets [encode] writes decode to the string they came from. *)
Lemma decode_encode (u : str) (bs : bytes) :
  UTF8.encode u = Ok bs -> utf8_decode bs = Some u.
Proof.
  revert bs. induction u as [|c u IH]; intros bs H; cbn [UTF8.encode] in H.
  - now injection H as <-.
  - destruct (UTF8.scalar c) eqn:Hc; [|discriminate].
    destruct (UTF8.encode u) as [bu|]; [|discriminate].
    injection H as <-. rewrite (decode_encode_cp c bu Hc), (IH bu eq_refl).
    reflexivity.
Qed.

(** C2 (amended).  For every URL string the UTF-8 codec accepts (no lone
    surrogate), [make_id] returns a result that depends on the string alone:
    the hexadecimal form of the SHA-1 digest of the string's UTF-8 octets.
    The octets are the string's UTF-8 form (they decode back to it), the
    digest is five 32-bit words, written as 40 characters, each a lowercase
    hexadecimal digit; SHA-1 is the function of FIPS 180-4 (its test
    messages, of zero, one and two blocks, get the published digests). *)
Theorem make_id_digest (u : str) :
  UTF8.well_formed u ->
  (forall v, v = u -> make_id v = make_id u) /\
  (exists bs d,
      UTF8.encode u = Ok bs /\ Forall octet bs /\ utf8_decode bs = Some u /\
      make_id u = Ok d /\ d = SHA1.hexdigest bs /\ words32 (SHA1.digest bs) /\
      length d = 40%nat /\ Forall (fun c => is_lower_hex c = true) d) /\
  SHA1.hexdigest [] = lit "da39a3ee5e6b4b0d3255bfef95601890afd80709" /\
  SHA1.hexdigest (lit "abc") = lit "a9993e364706816aba3e25717850c26c9cd0d89d" /\
  SHA1.hexdigest (lit "abcdbcdecdefdefgefghfghighijhijkijkljklmklmnlmnomnopnopq")
  = lit "84983e441c3bd26ebaae4aa1f95129e5e54670f1".
Proof.
  intro Hu. split; [now intros v ->|]. split.
  - destruct (encode_total u Hu) as [bs Hbs].
    exists bs, (SHA1.hexdigest bs). unfold make_id. rewrite Hbs.
    split; [reflexivity|].
    split; [exact (encode_octets u bs Hbs)|].
    split; [exact (decode_encode u bs Hbs)|].
    split; [reflexivity|]. split; [reflexivity|].
    split; [apply digest_words32|].
    split; [apply hexdigest_length | apply hexdigest_lower].
  - split; [vm_compute; reflexivity|].
    split; vm_compute; reflexivity.
Qed.

Lemma well_formed_mixed_url :
  UTF8.well_formed (lit "https://www.mymall.com.tw/" ++ [0x6E2C; 0x8A66; 0x1F600]).
Proof.
  apply Forall_forall. intros c H. vm_compute in H.
  repeat (destruct H as [<-|H]; [reflexivity|]). destruct H.
Qed.

Lemma make_id_digest_witness :
  UTF8.well_formed (lit "https://www.mymall.com.tw/" ++ [0x6E2C; 0x8A66; 0x1F600]) /\
  make_id (lit "https://www.mymall.com.tw/" ++ [0x6E2C; 0x8A66; 0x1F600])
  = Ok (lit "4d8d0e2c141ea5feb3fb49162c8b1cc176efcece") /\
  ((forall v, v = lit "https://www.mymall.com.tw/" ++ [0x6E2C; 0x8A66; 0x1F600] ->
              make_id v
              = make_id (lit "https://www.mymall.com.tw/" ++ [0x6E2C; 0x8A66; 0x1F600])) /\
   (exists bs d,
       UTF8.encode (lit "https://www.mymall.com.tw/" ++ [0x6E2C; 0x8A66; 0x1F600])
       = Ok bs /\ Forall octet bs /\
       utf8_decode bs
       = Some (lit "https://www.mymall.com.tw/" ++ [0x6E2C; 0x8A66; 0x1F600]) /\
       make_id (lit "https://www.mymall.com.tw/" ++ [0x6E2C; 0x8A66; 0x1F600])
       = Ok d /\ d = SHA1.hexdigest bs /\ words32 (SHA1.digest bs) /\
       length d = 40%nat /\ Forall (fun c => is_lower_hex c = true) d) /\
   SHA1.hexdigest [] = lit "da39a3ee5e6b4b0d3255bfef95601890afd80709" /\
   SHA1.hexdigest (lit "abc") = lit "a9993e364706816aba3e25717850c26c9cd0d89d" /\
   SHA1.hexdigest (lit "abcdbcdecdefdefgefghfghighijhijkijkljklmklmnlmnomnopnopq")
   = lit "84983e441c3bd26ebaae4aa1f95129e5e54670f1").
Proof.
  split; [exact well_formed_mixed_url|].
  split; [vm_compute; reflexivity|].
  exact (make_id_digest _ well_formed_mixed_url).
Defined.

(** C2 as stated fails on a string that holds a lone surrogate: there are no
    UTF-8 octets for it, [url.encode] raises and no digest is returned. *)
Lemma make_id_lone_surrogate :
  make_id (lit "https://www.mymall.com.tw/" ++ [0xDC80])
  = Raise UnicodeEncodeError /\
  ~ exists d, make_id (lit "https://www.mymall.com.tw/" ++ [0xDC80]) = Ok d.
Proof.
  split; [vm_compute; reflexivity|].
  intros [d H]. vm_compute in H. discriminate.
Qed.
